(** * LedgerLite: the derived-state layer and the record store of [src/App.tsx]

    The component keeps two collections (transactions and saving goals) and a
    few form fields in React state, synchronises them with a remote store and
    recomputes, on every render, the totals, the balance, the progress of each
    goal, the filtered view and (on demand) the CSV export.

    The embedding is shallow:
    - a TypeScript [number] is an IEEE 754 binary64 value, here Rocq's
      primitive [float] (same format, same rounding);
    - a [string] is a [string]; an array is a [list];
    - React state is a record that every handler maps to its successor;
    - what a handler does to the outside (console, alert, file download) is
      the list of effects it returns next to the new state;
    - an awaited remote call is the settled promise the handler continues
      with, and [try]/[catch]/[finally] are operations of a small state and
      exception monad;
    - the functions of the browser and of the JavaScript library the code
      calls but does not define ([parseFloat], [toLowerCase],
      [toLocaleDateString], number formatting, the instant a timestamp
      denotes) are the fields of the class [Host]. *)

From Stdlib Require Import ZArith List String Ascii Bool Lia Floats.
Import ListNotations.

(** ** JavaScript values and library functions *)

Module JS.

(** [Number]: binary64. *)
Definition number : Set := float.

(** [x === -0]. *)
Definition is_neg_zero (x : number) : bool :=
  match classify x with NZero => true | _ => false end.

(** [x === +0]. *)
Definition is_pos_zero (x : number) : bool :=
  match classify x with PZero => true | _ => false end.

(** [Math.min(x, y)] (ECMA-262, Math.min): NaN if an argument is NaN, and
    [-0] counts as smaller than [+0]. *)
Definition Math_min (x y : number) : number :=
  if is_nan x then nan
  else if is_nan y then nan
  else if is_neg_zero y && is_pos_zero x then y
  else if (y <? x)%float then y
  else x.

(** [x < y] and [x >= y] on numbers: both are [false] when an operand is
    NaN. *)
Definition lt (x y : number) : bool := (x <? y)%float.
Definition ge (x y : number) : bool := (y <=? x)%float.

(** A string is falsy exactly when it is empty. *)
Definition truthy (s : string) : bool :=
  match s with EmptyString => false | String _ _ => true end.

(** [s.startsWith(p)]. *)
Fixpoint startsWith (s p : string) {struct p} : bool :=
  match p, s with
  | EmptyString, _ => true
  | String _ _, EmptyString => false
  | String c p', String d s' => Ascii.eqb c d && startsWith s' p'
  end.

(** [s.includes(p)]: [p] occurs in [s] at some position. *)
Fixpoint includes (s p : string) : bool :=
  startsWith s p ||
  match s with
  | EmptyString => false
  | String _ s' => includes s' p
  end.

(** [a.join(sep)] on an array of strings. *)
Fixpoint join (sep : string) (a : list string) : string :=
  match a with
  | [] => EmptyString
  | [x] => x
  | x :: rest => (x ++ sep ++ join sep rest)%string
  end.

(** [s.split(c)[0]]: the part of [s] before the first [c]. *)
Fixpoint before (c : ascii) (s : string) : string :=
  match s with
  | EmptyString => EmptyString
  | String d s' => if Ascii.eqb c d then EmptyString else String d (before c s')
  end.

(** An exception value. *)
Definition Error : Set := string.

(** The completion of a [try] block: it ran to its end or it threw. *)
Inductive Completion (A : Type) : Type :=
| Normal (a : A)
| Throw (e : Error).
Arguments Normal {A} a.
Arguments Throw {A} e.

(** A settled promise. *)
Inductive Settled (A : Type) : Type :=
| Fulfilled (a : A)
| Rejected (e : Error).
Arguments Fulfilled {A} a.
Arguments Rejected {A} e.

(** [await p]. *)
Definition await {A : Type} (p : Settled A) : Completion A :=
  match p with
  | Fulfilled a => Normal a
  | Rejected e => Throw e
  end.

End JS.

Bind Scope float_scope with JS.number.
Bind Scope string_scope with JS.Error.

(** What the code calls and neither the repository nor this file defines. *)
Class Host : Type := {
  (** the global [parseFloat] *)
  parseFloat : string -> JS.number;
  (** [String.prototype.toLowerCase] *)
  toLowerCase : string -> string;
  (** [new Date(s).toLocaleDateString()] *)
  toLocaleDateString : string -> string;
  (** [Number::toString], what [join] applies to a number *)
  Number_toString : JS.number -> string;
  (** the instant (milliseconds since the epoch) a timestamp denotes: the key
      the remote store orders [date] and [created_at] by *)
  instant : string -> Z
}.

(** ** Data model (the two interfaces of [App.tsx]) *)

Inductive TransactionType : Set := income | expense.

Definition TransactionType_toString (ty : TransactionType) : string :=
  match ty with income => "income" | expense => "expense" end.

Module Transaction.
Record t : Set := mk {
  id : string;
  description : string;
  amount : JS.number;
  category : string;
  date : string;
  type : TransactionType;
  created_at : option string
}.
End Transaction.

Module SavingGoal.
Record t : Set := mk {
  id : string;
  name : string;
  target_amount : JS.number;
  created_at : option string
}.
End SavingGoal.

Definition CATEGORIES : list string :=
  ["Food"; "Transport"; "Entertainment"; "Shopping"; "Health"; "Other";
   "Salary"; "Freelance"]%string.

(** ** The remote store (the supabase client), as the handlers see it *)

(** The result object [{ data, error }] of a query. *)
Module Response.
Record t (A : Type) : Type := mk {
  data : option A;
  error : option JS.Error
}.
Arguments mk {A} data error.
Arguments data {A} _.
Arguments error {A} _.
End Response.

(** The row sent by [addTransaction]: the store assigns [id] and [created_at]. *)
Module NewTransaction.
Record t : Set := mk {
  description : string;
  amount : JS.number;
  category : string;
  date : string;
  type : TransactionType
}.
End NewTransaction.

(** The row sent by [addGoal]. *)
Module NewGoal.
Record t : Set := mk {
  name : string;
  target_amount : JS.number
}.
End NewGoal.

(** The six calls of [App.tsx].  Each is the promise the call settles to.
    [insert([row]).select()] answers with the rows it created: when [data] is
    not [null] it holds the created row first ([data[0]]), so it is a row and
    the rest of the array. *)
Module Remote.
Record t : Type := mk {
  select_transactions : JS.Settled (Response.t (list Transaction.t));
  select_goals : JS.Settled (Response.t (list SavingGoal.t));
  insert_transaction :
    NewTransaction.t -> JS.Settled (Response.t (Transaction.t * list Transaction.t));
  delete_transaction : string -> JS.Settled (Response.t unit);
  insert_goal :
    NewGoal.t -> JS.Settled (Response.t (SavingGoal.t * list SavingGoal.t));
  delete_goal : string -> JS.Settled (Response.t unit)
}.
End Remote.

(** ** React state of the component *)

Module State.
Record t : Type := mk {
  transactions : list Transaction.t;
  goals : list SavingGoal.t;
  isLoading : bool;
  (* transaction form *)
  description : string;
  amount : string;
  category : string;
  type : TransactionType;
  (* goal form *)
  goalName : string;
  goalTarget : string;
  searchTerm : string
}.

(** [useState] initial values. *)
Definition initial : t :=
  mk [] [] true "" "" "Food" expense "" "" "".

Definition setTransactions (v : list Transaction.t) (s : t) : t :=
  mk v (goals s) (isLoading s) (description s) (amount s) (category s)
     (type s) (goalName s) (goalTarget s) (searchTerm s).
Definition setGoals (v : list SavingGoal.t) (s : t) : t :=
  mk (transactions s) v (isLoading s) (description s) (amount s) (category s)
     (type s) (goalName s) (goalTarget s) (searchTerm s).
Definition setIsLoading (v : bool) (s : t) : t :=
  mk (transactions s) (goals s) v (description s) (amount s) (category s)
     (type s) (goalName s) (goalTarget s) (searchTerm s).
Definition setDescription (v : string) (s : t) : t :=
  mk (transactions s) (goals s) (isLoading s) v (amount s) (category s)
     (type s) (goalName s) (goalTarget s) (searchTerm s).
Definition setAmount (v : string) (s : t) : t :=
  mk (transactions s) (goals s) (isLoading s) (description s) v (category s)
     (type s) (goalName s) (goalTarget s) (searchTerm s).
Definition setCategory (v : string) (s : t) : t :=
  mk (transactions s) (goals s) (isLoading s) (description s) (amount s) v
     (type s) (goalName s) (goalTarget s) (searchTerm s).
Definition setType (v : TransactionType) (s : t) : t :=
  mk (transactions s) (goals s) (isLoading s) (description s) (amount s)
     (category s) v (goalName s) (goalTarget s) (searchTerm s).
Definition setGoalName (v : string) (s : t) : t :=
  mk (transactions s) (goals s) (isLoading s) (description s) (amount s)
     (category s) (type s) v (goalTarget s) (searchTerm s).
Definition setGoalTarget (v : string) (s : t) : t :=
  mk (transactions s) (goals s) (isLoading s) (description s) (amount s)
     (category s) (type s) (goalName s) v (searchTerm s).
Definition setSearchTerm (v : string) (s : t) : t :=
  mk (transactions s) (goals s) (isLoading s) (description s) (amount s)
     (category s) (type s) (goalName s) (goalTarget s) v.
End State.

(** ** Handlers: a state and exception monad

    A handler is a closure over the values of one render ([r] below): what it
    reads are those values, what it writes (the [set...] calls) goes to the
    pending state.  It also leaves effects outside React. *)

Inductive Effect : Type :=
| console_error (label : string) (e : JS.Error)
| alert (message : string)
| download (content mime filename : string).

Definition Handler (A : Type) : Type :=
  State.t -> JS.Completion A * State.t * list Effect.

Module Run.

Definition ret {A : Type} (a : A) : Handler A :=
  fun st => (JS.Normal a, st, []).

Definition throw {A : Type} (e : JS.Error) : Handler A :=
  fun st => (JS.Throw e, st, []).

Definition bind {A B : Type} (m : Handler A) (k : A -> Handler B) : Handler B :=
  fun st =>
    match m st with
    | (JS.Normal a, st', fx) =>
        let '(c, st'', fx') := k a st' in (c, st'', fx ++ fx')
    | (JS.Throw e, st', fx) => (JS.Throw e, st', fx)
    end.

(** A [set...] call of React. *)
Definition set (f : State.t -> State.t) : Handler unit :=
  fun st => (JS.Normal tt, f st, []).

(** An effect outside React. *)
Definition emit (x : Effect) : Handler unit :=
  fun st => (JS.Normal tt, st, [x]).

(** [await p] *)
Definition await {A : Type} (p : JS.Settled A) : Handler A :=
  fun st => (JS.await p, st, []).

(** [try { body } catch (error) { handler error }] *)
Definition try_catch {A : Type} (body : Handler A) (handler : JS.Error -> Handler A)
  : Handler A :=
  fun st =>
    match body st with
    | (JS.Normal a, st', fx) => (JS.Normal a, st', fx)
    | (JS.Throw e, st', fx) =>
        let '(c, st'', fx') := handler e st' in (c, st'', fx ++ fx')
    end.

(** [try { body } finally { fin }] where [fin] completes normally. *)
Definition try_finally {A : Type} (body : Handler A) (fin : Handler unit)
  : Handler A :=
  fun st =>
    let '(c, st', fx) := body st in
    match fin st' with
    | (JS.Normal _, st'', fx') => (c, st'', fx ++ fx')
    | (JS.Throw e, st'', fx') => (JS.Throw e, st'', fx ++ fx')
    end.

(** The state a render [r] is followed by once handler [h] has run. *)
Definition next (h : State.t -> Handler unit) (r : State.t) : State.t :=
  snd (fst (h r r)).

(** The effects handler [h] leaves when run from render [r]. *)
Definition effects (h : State.t -> Handler unit) (r : State.t) : list Effect :=
  snd (h r r).

(** Whether handler [h], run from render [r], lets an exception escape. *)
Definition throws (h : State.t -> Handler unit) (r : State.t) : bool :=
  match fst (fst (h r r)) with
  | JS.Normal _ => false
  | JS.Throw _ => true
  end.

End Run.

Notation "x <-- c ;;; k" := (Run.bind c (fun x => k))
  (at level 61, c at next level, right associativity).
Notation "c ;;; k" := (Run.bind c (fun _ => k))
  (at level 61, right associativity).

(** ** The component [App] *)

Module Totals.
(** The accumulator of [totals]. *)
Record t : Set := mk { income : JS.number; expense : JS.number }.
End Totals.

(** An element of a CSV row before [join] turns it into text. *)
Inductive Cell : Set :=
| cell_string (s : string)
| cell_number (n : JS.number).

Definition newline : string := String (ascii_of_nat 10) EmptyString.

(** [Promise.all([p, q])]: fulfilled with both results, rejected as soon as
    one of the two is. *)
Definition Promise_all {A B : Type} (p : JS.Settled A) (q : JS.Settled B)
  : JS.Settled (A * B) :=
  match p, q with
  | JS.Fulfilled a, JS.Fulfilled b => JS.Fulfilled (a, b)
  | JS.Rejected e, _ => JS.Rejected e
  | _, JS.Rejected e => JS.Rejected e
  end.

(** [data || []] *)
Definition or_empty {A : Type} (data : option (list A)) : list A :=
  match data with Some rows => rows | None => [] end.

Section App.

Context {host : Host}.

(** *** Values derived on every render *)

(** [totals] (lines 183-187): one pass of [reduce] from
    [{ income: 0, expense: 0 }]. *)
Definition totals_step (acc : Totals.t) (current : Transaction.t) : Totals.t :=
  match Transaction.type current with
  | income =>
      Totals.mk (Totals.income acc + Transaction.amount current)%float
                (Totals.expense acc)
  | expense =>
      Totals.mk (Totals.income acc)
                (Totals.expense acc + Transaction.amount current)%float
  end.

Definition totals (transactions : list Transaction.t) : Totals.t :=
  fold_left totals_step transactions (Totals.mk 0%float 0%float).

(** [balance] (line 189). *)
Definition balance (transactions : list Transaction.t) : JS.number :=
  (Totals.income (totals transactions) - Totals.expense (totals transactions))%float.

(** [progress] (line 272). *)
Definition progress (balance : JS.number) (goal : SavingGoal.t) : JS.number :=
  JS.Math_min ((balance / SavingGoal.target_amount goal) * 100)%float 100%float.

(** [isAchieved] (line 273). *)
Definition isAchieved (progress : JS.number) : bool :=
  JS.ge progress 100%float.

(** The number in the [width] of the bar (line 293):
    [progress < 0 ? 0 : progress]. *)
Definition barWidth (progress : JS.number) : JS.number :=
  if JS.lt progress 0%float then 0%float else progress.

(** The predicate of [filteredTransactions] (lines 179-180). *)
Definition matchesSearch (searchTerm : string) (t : Transaction.t) : bool :=
  JS.includes (toLowerCase (Transaction.description t)) (toLowerCase searchTerm)
  || JS.includes (toLowerCase (Transaction.category t)) (toLowerCase searchTerm).

(** [filteredTransactions] (lines 178-181). *)
Definition filteredTransactions (transactions : list Transaction.t)
    (searchTerm : string) : list Transaction.t :=
  filter (matchesSearch searchTerm) transactions.

(** *** CSV export (lines 150-176) *)

Definition headers : list string :=
  ["Date"; "Description"; "Category"; "Type"; "Amount"]%string.

(** What [join] makes of an element. *)
Definition ToString (c : Cell) : string :=
  match c with
  | cell_string s => s
  | cell_number n => Number_toString n
  end.

(** One element of [csvData] (lines 154-160). *)
Definition csvRow (t : Transaction.t) : list Cell :=
  [ cell_string (toLocaleDateString (Transaction.date t));
    cell_string (Transaction.description t);
    cell_string (Transaction.category t);
    cell_string (TransactionType_toString (Transaction.type t));
    cell_number (Transaction.amount t) ].

(** [csvContent] (lines 162-165). *)
Definition csvContent (transactions : list Transaction.t) : string :=
  JS.join newline
    (JS.join "," headers
     :: map (fun row => JS.join "," (map ToString row)) (map csvRow transactions)).

(** [exportToCSV]; [now] is [new Date().toISOString()].  Creating the blob,
    the link and the click are the one effect [download]. *)
Definition exportToCSV (now : string) (r : State.t) : Handler unit :=
  match State.transactions r with
  | [] => Run.ret tt
  | _ :: _ =>
      Run.emit
        (download (csvContent (State.transactions r))
                  "text/csv;charset=utf-8;"
                  ("ledger-lite-export-" ++ JS.before "T" now ++ ".csv"))
  end.

(** *** Handlers that talk to the remote store *)

(** [fetchData] (lines 44-62). *)
Definition fetchData (db : Remote.t) (r : State.t) : Handler unit :=
  Run.try_finally
    (Run.try_catch
       (Run.set (State.setIsLoading true) ;;;
        res <-- Run.await
                  (Promise_all (Remote.select_transactions db)
                               (Remote.select_goals db)) ;;;
        let '(transRes, goalsRes) := res in
        match Response.error transRes with
        | Some e => Run.throw e
        | None =>
            match Response.error goalsRes with
            | Some e => Run.throw e
            | None =>
                Run.set (State.setTransactions (or_empty (Response.data transRes))) ;;;
                Run.set (State.setGoals (or_empty (Response.data goalsRes)))
            end
        end)
       (fun error => Run.emit (console_error "Error fetching data:" error)))
    (Run.set (State.setIsLoading false)).

(** [newTransaction] (lines 68-74); [now] is [new Date().toISOString()]. *)
Definition newTransaction (now : string) (r : State.t) : NewTransaction.t :=
  NewTransaction.mk (State.description r) (parseFloat (State.amount r))
                    (State.category r) now (State.type r).

(** [addTransaction] (lines 64-92). *)
Definition addTransaction (db : Remote.t) (now : string) (r : State.t)
  : Handler unit :=
  if negb (JS.truthy (State.description r)) || negb (JS.truthy (State.amount r))
  then Run.ret tt
  else
    Run.try_catch
      (res <-- Run.await (Remote.insert_transaction db (newTransaction now r)) ;;;
       match Response.error res with
       | Some e => Run.throw e
       | None =>
           match Response.data res with
           | Some (data0, _) =>
               Run.set (State.setTransactions (data0 :: State.transactions r)) ;;;
               Run.set (State.setDescription "") ;;;
               Run.set (State.setAmount "")
           | None => Run.ret tt
           end
       end)
      (fun error => Run.emit (console_error "Error adding transaction:" error)).

(** [deleteTransaction] (lines 94-107). *)
Definition deleteTransaction (db : Remote.t) (id : string) (r : State.t)
  : Handler unit :=
  Run.try_catch
    (res <-- Run.await (Remote.delete_transaction db id) ;;;
     match Response.error res with
     | Some e => Run.throw e
     | None =>
         Run.set (State.setTransactions
                    (filter (fun t => negb (String.eqb (Transaction.id t) id))
                            (State.transactions r)))
     end)
    (fun error => Run.emit (console_error "Error deleting transaction:" error)).

(** [newGoal] (lines 113-116). *)
Definition newGoal (r : State.t) : NewGoal.t :=
  NewGoal.mk (State.goalName r) (parseFloat (State.goalTarget r)).

(** [addGoal] (lines 109-134). *)
Definition addGoal (db : Remote.t) (r : State.t) : Handler unit :=
  if negb (JS.truthy (State.goalName r)) || negb (JS.truthy (State.goalTarget r))
  then Run.ret tt
  else
    Run.try_catch
      (res <-- Run.await (Remote.insert_goal db (newGoal r)) ;;;
       match Response.error res with
       | Some e => Run.throw e
       | None =>
           match Response.data res with
           | Some (data0, _) =>
               Run.set (State.setGoals (State.goals r ++ [data0])) ;;;
               Run.set (State.setGoalName "") ;;;
               Run.set (State.setGoalTarget "")
           | None => Run.ret tt
           end
       end)
      (fun error =>
         Run.emit (console_error "Error adding goal:" error) ;;;
         Run.emit (alert "Failed to add goal.")).

(** [deleteGoal] (lines 136-148). *)
Definition deleteGoal (db : Remote.t) (id : string) (r : State.t)
  : Handler unit :=
  Run.try_catch
    (res <-- Run.await (Remote.delete_goal db id) ;;;
     match Response.error res with
     | Some e => Run.throw e
     | None =>
         Run.set (State.setGoals
                    (filter (fun g => negb (String.eqb (SavingGoal.id g) id))
                            (State.goals r)))
     end)
    (fun error => Run.emit (console_error "Error deleting goal:" error)).

End App.

(** ** Vocabulary of the specification *)

(** The sum of a list of numbers, taken in list order from [0]. *)
Definition sum_of (xs : list JS.number) : JS.number :=
  fold_left (fun acc x => (acc + x)%float) xs 0%float.

Definition TransactionType_eqb (a b : TransactionType) : bool :=
  match a, b with
  | income, income | expense, expense => true
  | _, _ => false
  end.

(** The amounts of the transactions of one type, in list order. *)
Definition amounts_of (ty : TransactionType) (transactions : list Transaction.t)
  : list JS.number :=
  map Transaction.amount
      (filter (fun t => TransactionType_eqb (Transaction.type t) ty) transactions).

(** [Subseq l1 l2]: [l1] is [l2] with some elements left out, the others in
    their order. *)
Inductive Subseq {A : Type} : list A -> list A -> Prop :=
| Subseq_nil : Subseq [] []
| Subseq_skip : forall x l1 l2, Subseq l1 l2 -> Subseq l1 (x :: l2)
| Subseq_keep : forall x l1 l2, Subseq l1 l2 -> Subseq (x :: l1) (x :: l2).

(** [q] is a substring of [s]. *)
Definition substring_of (q s : string) : Prop :=
  exists pre post : string, s = (pre ++ q ++ post)%string.

(** The query occurs, case-insensitively, in the description or in the
    category of [t]. *)
Definition Matches {host : Host} (q : string) (t : Transaction.t) : Prop :=
  substring_of (toLowerCase q) (toLowerCase (Transaction.description t))
  \/ substring_of (toLowerCase q) (toLowerCase (Transaction.category t)).

(** The CSV text the specification describes: the header line, then for each
    transaction, in order, a line feed and its five fields separated by
    commas, none of them escaped. *)
Definition csv_header : string := "Date,Description,Category,Type,Amount".

Definition csv_line {host : Host} (t : Transaction.t) : string :=
  (toLocaleDateString (Transaction.date t) ++ "," ++
   Transaction.description t ++ "," ++
   Transaction.category t ++ "," ++
   TransactionType_toString (Transaction.type t) ++ "," ++
   Number_toString (Transaction.amount t))%string.

Fixpoint csv_lines {host : Host} (transactions : list Transaction.t) : string :=
  match transactions with
  | [] => EmptyString
  | t :: rest => (newline ++ csv_line t ++ csv_lines rest)%string
  end.

Definition csv_text {host : Host} (transactions : list Transaction.t) : string :=
  (csv_header ++ csv_lines transactions)%string.

(** Ordering invariants of the two collections. *)

(** Adjacent elements are in relation [R]. *)
Fixpoint chain {A : Type} (R : A -> A -> Prop) (l : list A) : Prop :=
  match l with
  | [] => True
  | x :: rest =>
      match rest with
      | [] => True
      | y :: _ => R x y /\ chain R rest
      end
  end.

(** Transactions by [date], latest first. *)
Definition dateDescending {host : Host} (transactions : list Transaction.t) : Prop :=
  chain (fun a b =>
           (instant (Transaction.date b) <= instant (Transaction.date a))%Z)
        transactions.

(** [created_at] keys in the ascending order of the remote store: a missing
    [created_at] sorts last. *)
Definition created_le {host : Host} (a b : option string) : Prop :=
  match a, b with
  | Some x, Some y => (instant x <= instant y)%Z
  | _, None => True
  | None, Some _ => False
  end.

(** Goals by [created_at], earliest first. *)
Definition createdAscending {host : Host} (goals : list SavingGoal.t) : Prop :=
  chain (fun a b => created_le (SavingGoal.created_at a) (SavingGoal.created_at b))
        goals.

(** ** A host for examples

    ASCII lower-casing, timestamps as [toISOString] writes them
    ([YYYY-MM-DDTHH:MM:SS.mmmZ]), plain decimal numerals. *)

Module ExampleHost.

Definition lower_char (c : ascii) : ascii :=
  let n := nat_of_ascii c in
  if (65 <=? n)%nat && (n <=? 90)%nat then ascii_of_nat (n + 32) else c.

Fixpoint lower (s : string) : string :=
  match s with
  | EmptyString => EmptyString
  | String c s' => String (lower_char c) (lower s')
  end.

Definition is_digit (c : ascii) : bool :=
  let n := nat_of_ascii c in (48 <=? n)%nat && (n <=? 57)%nat.

Definition digit_value (c : ascii) : Z := (Z.of_nat (nat_of_ascii c) - 48)%Z.

(** The decimal numeral at the start of [s]: its value from [acc], the
    number of digits read, and what follows. *)
Fixpoint read_digits (acc : Z) (n : nat) (s : string) : Z * nat * string :=
  match s with
  | String c s' =>
      if is_digit c then read_digits (10 * acc + digit_value c)%Z (S n) s'
      else (acc, n, s)
  | EmptyString => (acc, n, s)
  end.

Definition float_of_Z (z : Z) : JS.number := of_uint63 (Uint63.of_Z z).

(** [parseFloat] on [digits] and [digits.digits] (at most 15 digits in all,
    so that both the digits and the power of ten are exact and the one
    division rounds as the numeral does); [NaN] when no digit starts the
    string. *)
Definition parse_decimal (s : string) : JS.number :=
  let '(i, n, rest) := read_digits 0 0 s in
  match n with
  | O => nan
  | S _ =>
      match rest with
      | String "." frac =>
          let '(m, k, _) := read_digits i 0 frac in
          (float_of_Z m / float_of_Z (10 ^ Z.of_nat k)%Z)%float
      | _ => float_of_Z i
      end
  end.

(** The numeral between [off] and [off + len]. *)
Definition field (off len : nat) (s : string) : Z :=
  fst (fst (read_digits 0 0 (substring off len s))).

(** Days from 1970-01-01 to the given day of the proleptic Gregorian
    calendar. *)
Definition days_from_civil (y m d : Z) : Z :=
  (let y' := if m <=? 2 then y - 1 else y in
   let era := y' / 400 in
   let yoe := y' - era * 400 in
   let mp := (m + 9) mod 12 in
   let doy := (153 * mp + 2) / 5 + d - 1 in
   let doe := yoe * 365 + yoe / 4 - yoe / 100 + doy in
   era * 146097 + doe - 719468)%Z.

(** Milliseconds since the epoch of [YYYY-MM-DDTHH:MM:SS.mmmZ]. *)
Definition iso_instant (s : string) : Z :=
  let days := days_from_civil (field 0 4 s) (field 5 2 s) (field 8 2 s) in
  ((((days * 24 + field 11 2 s) * 60 + field 14 2 s) * 60 + field 17 2 s) * 1000
   + field 20 3 s)%Z.

(** The calendar date of a timestamp, as the part before [T]. *)
Definition iso_date (s : string) : string := JS.before "T" s.

Fixpoint digits_of (fuel : nat) (z : Z) (acc : string) : string :=
  match fuel with
  | O => acc
  | S fuel' =>
      let acc' := String (ascii_of_nat (48 + Z.to_nat (z mod 10))) acc in
      if (z <? 10)%Z then acc' else digits_of fuel' (z / 10) acc'
  end.

(** The numeral of an integer that [float] holds exactly; a number with a
    fraction, an infinity or NaN is outside what the examples print and
    reads [NaN]. *)
Definition print_integer (x : JS.number) : string :=
  match Prim2SF x with
  | S754_zero _ => "0"
  | S754_finite s m e =>
      if (0 <=? e)%Z
      then ((if s then "-" else "") ++ digits_of 400 (Z.pos m * 2 ^ e)%Z "")%string
      else if (Z.pos m mod 2 ^ (- e) =? 0)%Z
      then ((if s then "-" else "") ++ digits_of 400 (Z.pos m / 2 ^ (- e))%Z "")%string
      else "NaN"
  | _ => "NaN"
  end.

Definition host : Host :=
  {| parseFloat := parse_decimal;
     toLowerCase := lower;
     toLocaleDateString := iso_date;
     Number_toString := print_integer;
     instant := iso_instant |}.

End ExampleHost.

(** ** Outcomes of a remote call *)

(** The call did not succeed: the promise was rejected, or the result carries
    an [error]. *)
Definition failed {A : Type} (p : JS.Settled (Response.t A)) : Prop :=
  match p with
  | JS.Rejected _ => True
  | JS.Fulfilled res =>
      match Response.error res with Some _ => True | None => False end
  end.

(** The call succeeded and answered with the created [row]. *)
Definition created {A : Type} (p : JS.Settled (Response.t (A * list A))) (row : A)
  : Prop :=
  match p with
  | JS.Rejected _ => False
  | JS.Fulfilled res =>
      match Response.error res, Response.data res with
      | None, Some (row', _) => row' = row
      | _, _ => False
      end
  end.

(** The two replies of [fetchData] are in the order it asks for. *)
Definition fetch_ordered {host : Host} (db : Remote.t) : Prop :=
  (forall res, Remote.select_transactions db = JS.Fulfilled res ->
               dateDescending (or_empty (Response.data res)))
  /\ (forall res, Remote.select_goals db = JS.Fulfilled res ->
                  createdAscending (or_empty (Response.data res))).

(** A created transaction is not dated before the first one on display. *)
Definition not_before_first {host : Host} (db : Remote.t) (now : string)
    (r : State.t) : Prop :=
  forall row first rest,
    created (Remote.insert_transaction db (newTransaction now r)) row ->
    State.transactions r = first :: rest ->
    (instant (Transaction.date first) <= instant (Transaction.date row))%Z.

(** A created goal is not created before any goal on display. *)
Definition not_before_goals {host : Host} (db : Remote.t) (r : State.t) : Prop :=
  forall row g,
    created (Remote.insert_goal db (newGoal r)) row ->
    In g (State.goals r) ->
    created_le (SavingGoal.created_at g) (SavingGoal.created_at row).

(** ** A remote store for examples *)

Module ExampleRemote.

(** A store that holds [ts] and [gs], accepts every insertion and deletion,
    and gives the created row the identifier [id] and the creation time
    [at_]. *)
Definition accepting (ts : list Transaction.t) (gs : list SavingGoal.t)
    (id at_ : string) : Remote.t :=
  Remote.mk
    (JS.Fulfilled (Response.mk (Some ts) None))
    (JS.Fulfilled (Response.mk (Some gs) None))
    (fun row =>
       JS.Fulfilled
         (Response.mk
            (Some (Transaction.mk id (NewTransaction.description row)
                     (NewTransaction.amount row) (NewTransaction.category row)
                     (NewTransaction.date row) (NewTransaction.type row)
                     (Some at_), []))
            None))
    (fun _ => JS.Fulfilled (Response.mk None None))
    (fun row =>
       JS.Fulfilled
         (Response.mk
            (Some (SavingGoal.mk id (NewGoal.name row)
                     (NewGoal.target_amount row) (Some at_), []))
            None))
    (fun _ => JS.Fulfilled (Response.mk None None)).

(** A store every call to which fails with [e]: the reads and the
    insertions by a rejected promise, the deletions by an [error] result. *)
Definition failing (e : JS.Error) : Remote.t :=
  Remote.mk
    (JS.Rejected e)
    (JS.Rejected e)
    (fun _ => JS.Rejected e)
    (fun _ => JS.Fulfilled (Response.mk None (Some e)))
    (fun _ => JS.Rejected e)
    (fun _ => JS.Fulfilled (Response.mk None (Some e))).

End ExampleRemote.

(** ** A render for examples *)

Module Example.

Definition coffee : Transaction.t :=
  Transaction.mk "t1" "Coffee" 50 "Food" "2026-01-02T08:00:00.000Z" expense
                 (Some "2026-01-02T08:00:01.000Z"%string).

Definition salary : Transaction.t :=
  Transaction.mk "t2" "Salary" 1000 "Salary" "2026-01-01T09:00:00.000Z" income
                 (Some "2026-01-01T09:00:01.000Z"%string).

Definition bike : SavingGoal.t :=
  SavingGoal.mk "g1" "Bike" 1000 (Some "2026-01-03T10:00:00.000Z"%string).

(** A render with two transactions (latest first), one goal and both forms
    filled in. *)
Definition render : State.t :=
  State.mk [coffee; salary] [bike] false "Tea" "20" "Food" expense
           "Trip" "300" "".

Definition now : string := "2026-11-02T10:00:00.000Z".

End Example.

(** ** Vocabulary for binary64 arithmetic

    [Stdlib]'s [SpecFloat] specifies the primitive operations ([FloatAxioms]):
    a finite number is a sign, a mantissa [m] and an exponent [e], of value
    [m * 2^e]; [prec = 53], [emax = 1024], and the least exponent is [-1074]. *)

(** The value of a positive finite number, scaled by [2^1074] to be an
    integer. *)
Definition val (m : positive) (e : Z) : Z := (Z.pos m * 2 ^ (e + 1074))%Z.

(** The second stage of [binary_round_aux]: the rounded mantissa [m2] at
    exponent [E] is normalised (a carry shifts it once more) and checked for
    overflow. *)
Definition finish (s : bool) (m2 E : Z) : spec_float :=
  let '(mrs'', e'') := shr_fexp prec emax m2 E loc_Exact in
  match shr_m mrs'' with
  | Z0 => S754_zero s
  | Zpos m => if (e'' <=? emax - prec)%Z then S754_finite s m e'' else S754_infinity s
  | Zneg _ => S754_nan
  end.

(** [R] is the number of sign [s] that holds the rounded mantissa [m2] at
    exponent [E]: zero, a finite number of the same value, or an infinity
    when the exponent is out of range. *)
Definition rounded (R : spec_float) (s : bool) (m2 E : Z) : Prop :=
  (m2 = 0%Z /\ R = S754_zero s)
  \/ exists (m3 : positive) (e3 : Z),
       (E <= e3 <= E + 1)%Z /\ (Z.pos m3 * 2 ^ (e3 - E))%Z = m2
       /\ ((e3 <= 971)%Z /\ R = S754_finite s m3 e3
           \/ (971 < e3)%Z /\ R = S754_infinity s).

(** The mantissa of [100 = hundred_m * 2^-46]. *)
Definition hundred_m : positive := 7036874417766400.

Definition C100 : spec_float := S754_finite false hundred_m (-46).

(** What [SFdiv_core_binary] computes for [mb * 2^eb / (mt * 2^et)]: the
    exponent of the integer quotient, the shift of the dividend, the
    quotient and the remainder. *)
Definition quot_exp (mb mt : positive) (eb et : Z) : Z :=
  Z.min (Z.max (Zdigits2 (Z.pos mb) + eb - (Zdigits2 (Z.pos mt) + et) - 53) (-1074))
        (eb - et).
Definition quot_shift (mb mt : positive) (eb et : Z) : Z :=
  (eb - et - quot_exp mb mt eb et)%Z.
Definition quot (mb mt : positive) (eb et : Z) : Z :=
  ((Z.pos mb * 2 ^ quot_shift mb mt eb et) / Z.pos mt)%Z.
Definition quot_rem (mb mt : positive) (eb et : Z) : Z :=
  ((Z.pos mb * 2 ^ quot_shift mb mt eb et) mod Z.pos mt)%Z.

(** ** The theme (lines 191-201)

    The theme is a string kept in React state; [localStorage] keeps one item
    under the key [ledger-theme] and the document one attribute
    [data-theme]. *)

Module Theme.

(** What the component reads and writes outside React for the theme. *)
Record Browser : Set := mkBrowser {
  ledger_theme : option string;   (* localStorage.getItem('ledger-theme') *)
  data_theme : option string      (* the attribute of document.documentElement *)
}.

(** The initial state (lines 191-194): [saved || 'dark'], the cast checking
    nothing. *)
Definition initial (env : Browser) : string :=
  match ledger_theme env with
  | Some saved => if JS.truthy saved then saved else "dark"
  | None => "dark"
  end.

(** The effect run after a render with a new theme (lines 196-199). *)
Definition effect (theme : string) (env : Browser) : Browser :=
  mkBrowser (Some theme) (Some theme).

(** [toggleTheme] (line 201). *)
Definition toggleTheme (prev : string) : string :=
  if String.eqb prev "light" then "dark" else "light".

End Theme.

(** ** Further vocabulary *)

(** The handler shows an alert. *)
Definition is_alert (x : Effect) : bool :=
  match x with alert _ => true | _ => false end.

(** The number of occurrences of a character in a string. *)
Fixpoint count_char (c : ascii) (s : string) : nat :=
  match s with
  | EmptyString => O
  | String d s' => (if Ascii.eqb c d then 1 else 0) + count_char c s'
  end.

(** The five texts of a CSV line, as [exportToCSV] writes them. *)
Definition csv_fields {host : Host} (t : Transaction.t) : list string :=
  [ toLocaleDateString (Transaction.date t);
    Transaction.description t;
    Transaction.category t;
    TransactionType_toString (Transaction.type t);
    Number_toString (Transaction.amount t) ].

(** The pending state after the handler [h] of render [r] has run on the
    pending state [st]: what it reads is [r], what it writes goes to [st]. *)
Definition run_on (h : State.t -> Handler unit) (r st : State.t) : State.t :=
  snd (fst (h r st)).

(** A number that is not NaN and not below zero ([+0], [-0], a positive
    number or [+Infinity]). *)
Definition nonneg (x : JS.number) : bool := (0 <=? x)%float.

(** * Properties *)

(** ** Aggregation *)

Lemma totals_step_fold (ts : list Transaction.t) (acc : Totals.t) :
  fold_left totals_step ts acc =
  Totals.mk
    (fold_left (fun a x => (a + x)%float) (amounts_of income ts) (Totals.income acc))
    (fold_left (fun a x => (a + x)%float) (amounts_of expense ts) (Totals.expense acc)).
Proof.
  revert acc.
  induction ts as [|t ts IH]; intros [i e]; [reflexivity|].
  cbn [fold_left]. rewrite IH. unfold totals_step, amounts_of. cbn [filter].
  destruct (Transaction.type t); reflexivity.
Qed.

(** C1. [totals] holds, for each type, the sum of the amounts of the
    transactions of that type (taken in list order); [balance] is the income
    total minus the expense total; on the empty list both totals are [0]. *)
Theorem totals_are_sums_by_type (transactions : list Transaction.t) :
  Totals.income (totals transactions) = sum_of (amounts_of income transactions)
  /\ Totals.expense (totals transactions) = sum_of (amounts_of expense transactions)
  /\ balance transactions =
       (Totals.income (totals transactions) - Totals.expense (totals transactions))%float
  /\ balance transactions =
       (sum_of (amounts_of income transactions)
        - sum_of (amounts_of expense transactions))%float
  /\ totals [] = Totals.mk 0%float 0%float.
Proof.
  unfold balance, totals, sum_of. rewrite totals_step_fold. cbn.
  repeat split.
Qed.

(** The scenario of the specification: Coffee 50 (expense) and Salary 1000
    (income) give income 1000, expense 50 and balance 950. *)
Example totals_scenario :
  let ts := [ Transaction.mk "1" "Coffee" 50 "Food" "2026-01-02T00:00:00.000Z" expense None;
              Transaction.mk "2" "Salary" 1000 "Salary" "2026-01-01T00:00:00.000Z" income None ] in
  totals ts = Totals.mk 1000%float 50%float /\ balance ts = 950%float.
Proof. split; reflexivity. Qed.

(** ** Strings *)

Lemma append_assoc (a b c : string) : ((a ++ b) ++ c = a ++ (b ++ c))%string.
Proof. induction a as [|x a IH]; cbn; [reflexivity | now rewrite IH]. Qed.

Lemma append_empty_r (a : string) : (a ++ "" = a)%string.
Proof. induction a as [|x a IH]; cbn; [reflexivity | now rewrite IH]. Qed.

(** ** CSV export *)

Section CsvExport.

Context {host : Host}.

Lemma csvRow_line (t : Transaction.t) :
  JS.join "," (map ToString (csvRow t)) = csv_line t.
Proof. reflexivity. Qed.

Lemma join_lines (first : string) (ts : list Transaction.t) :
  JS.join newline
    (first :: map (fun row => JS.join "," (map ToString row)) (map csvRow ts))
  = (first ++ csv_lines ts)%string.
Proof.
  revert first.
  induction ts as [|t ts IH]; intros first.
  - cbn. now rewrite append_empty_r.
  - cbn [map csv_lines]. rewrite <- IH, csvRow_line. reflexivity.
Qed.

Lemma csvContent_text (ts : list Transaction.t) : csvContent ts = csv_text ts.
Proof. unfold csvContent. rewrite join_lines. reflexivity. Qed.

(** C3. With no transaction, [exportToCSV] does nothing (no download, state
    untouched) and the serializer's text is the header line alone; with at
    least one, it offers one download whose text is the header line
    followed, for each transaction in order, by a line feed and the fields
    date, description, category, type and amount separated by commas, as
    they are (no escaping). *)
Theorem exportToCSV_text (now : string) (r : State.t)
    (t : Transaction.t) (ts : list Transaction.t) :
  Run.effects (exportToCSV now) (State.setTransactions [] r) = []
  /\ Run.next (exportToCSV now) (State.setTransactions [] r)
     = State.setTransactions [] r
  /\ csvContent [] = "Date,Description,Category,Type,Amount"%string
  /\ Run.effects (exportToCSV now) (State.setTransactions (t :: ts) r)
     = [download (csv_text (t :: ts)) "text/csv;charset=utf-8;"
                 ("ledger-lite-export-" ++ JS.before "T" now ++ ".csv")]
  /\ Run.next (exportToCSV now) (State.setTransactions (t :: ts) r)
     = State.setTransactions (t :: ts) r
  /\ csv_text (t :: ts)
     = (csv_header ++ newline
        ++ toLocaleDateString (Transaction.date t) ++ ","
        ++ Transaction.description t ++ ","
        ++ Transaction.category t ++ ","
        ++ TransactionType_toString (Transaction.type t) ++ ","
        ++ Number_toString (Transaction.amount t)
        ++ csv_lines ts)%string.
Proof.
  unfold Run.effects, Run.next, exportToCSV. cbn [State.transactions State.setTransactions].
  repeat split; cbn [fst snd Run.ret Run.emit].
  - rewrite csvContent_text. reflexivity.
  - unfold csv_text, csv_line. cbn [csv_lines]. unfold csv_line.
    now rewrite !append_assoc.
Qed.

End CsvExport.

(** A description that holds a comma is written as it is: the line has one
    comma more. *)
Example csv_no_escaping :
  @csv_text ExampleHost.host
    [ Transaction.mk "1" "Tea, green" 50 "Food" "2026-01-02T09:30:00.000Z" expense None ]
  = ("Date,Description,Category,Type,Amount" ++ newline
     ++ "2026-01-02,Tea, green,Food,expense,50")%string.
Proof. reflexivity. Qed.

(** ** Search filter *)

Lemma startsWith_spec (s p : string) :
  JS.startsWith s p = true <-> exists post, s = (p ++ post)%string.
Proof.
  revert s. induction p as [|c p IH]; intros s; cbn.
  - split; [intros _; now exists s | reflexivity].
  - destruct s as [|d s]; cbn.
    + split; [discriminate | intros [post H]; discriminate].
    + rewrite andb_true_iff, IH. split.
      * intros [Hc [post ->]]. apply Ascii.eqb_eq in Hc. subst d. now exists post.
      * intros [post H]. injection H as -> ->. split; [apply Ascii.eqb_refl | now exists post].
Qed.

Lemma includes_spec (s p : string) :
  JS.includes s p = true <-> substring_of p s.
Proof.
  unfold substring_of. split.
  - induction s as [|c s IH]; cbn [JS.includes]; rewrite orb_true_iff.
    + intros [H | H]; [|discriminate].
      apply startsWith_spec in H as [post ->]. now exists ""%string, post.
    + intros [H | H].
      * apply startsWith_spec in H as [post ->]. now exists ""%string, post.
      * destruct (IH H) as [pre [post ->]]. now exists (String c pre), post.
  - intros [pre [post ->]]. induction pre as [|c pre IH].
    + cbn [append]. destruct (p ++ post)%string eqn:E; cbn [JS.includes];
        rewrite <- E; apply orb_true_iff; left; apply startsWith_spec; now exists post.
    + cbn [append JS.includes]. rewrite IH. apply orb_true_r.
Qed.

Lemma includes_empty (s : string) : JS.includes s "" = true.
Proof. apply includes_spec. now exists ""%string, s. Qed.

Lemma Subseq_filter {A : Type} (f : A -> bool) (l : list A) :
  Subseq (filter f l) l.
Proof.
  induction l as [|x l IH]; cbn; [constructor|].
  destruct (f x); now constructor.
Qed.

Lemma Subseq_filter_greatest {A : Type} (f : A -> bool) (l l' : list A) :
  Subseq l' l -> (forall x, In x l' -> f x = true) -> Subseq l' (filter f l).
Proof.
  induction 1 as [|x l1 l2 _ IH|x l1 l2 _ IH]; intros Hall; cbn.
  - constructor.
  - destruct (f x); [apply Subseq_skip|]; now apply IH.
  - rewrite (Hall x (or_introl eq_refl)). apply Subseq_keep, IH.
    intros y Hy. apply Hall. now right.
Qed.

Lemma filter_all {A : Type} (f : A -> bool) (l : list A) :
  (forall x, In x l -> f x = true) -> filter f l = l.
Proof.
  induction l as [|x l IH]; intros Hall; cbn; [reflexivity|].
  rewrite (Hall x (or_introl eq_refl)), IH; [reflexivity|].
  intros y Hy. apply Hall. now right.
Qed.

Lemma filter_twice {A : Type} (f : A -> bool) (l : list A) :
  filter f (filter f l) = filter f l.
Proof.
  apply filter_all. intros x Hx. now apply filter_In in Hx.
Qed.

Section Search.

Context {host : Host}.

Lemma matchesSearch_spec (q : string) (t : Transaction.t) :
  matchesSearch q t = true <-> Matches q t.
Proof.
  unfold matchesSearch, Matches.
  now rewrite orb_true_iff, !includes_spec.
Qed.

(** C4. [filteredTransactions] is the sub-sequence of the transactions, in
    their order, made of exactly those in whose description or category
    the query occurs, letter case set aside: it is a sub-sequence, its
    members are the matching transactions, and every sub-sequence of
    matching transactions is a sub-sequence of it.  The empty query keeps
    every transaction, the result never holds a transaction the input does
    not hold, and filtering the result again with the same query changes
    nothing.  ([toLowerCase] is the host's; that it maps the empty string
    to itself is what the empty query needs.) *)
Theorem filteredTransactions_spec (transactions : list Transaction.t) (q : string)
    (lower_empty : toLowerCase "" = ""%string) :
  Subseq (filteredTransactions transactions q) transactions
  /\ (forall t, In t (filteredTransactions transactions q)
                <-> In t transactions /\ Matches q t)
  /\ (forall l, Subseq l transactions -> (forall t, In t l -> Matches q t) ->
                Subseq l (filteredTransactions transactions q))
  /\ filteredTransactions transactions "" = transactions
  /\ incl (filteredTransactions transactions q) transactions
  /\ filteredTransactions (filteredTransactions transactions q) q
     = filteredTransactions transactions q.
Proof.
  unfold filteredTransactions. repeat apply conj.
  - apply Subseq_filter.
  - intros t. now rewrite filter_In, matchesSearch_spec.
  - intros l Hsub Hall. apply Subseq_filter_greatest; [assumption|].
    intros t Ht. now apply matchesSearch_spec, Hall.
  - apply filter_all. intros t _. unfold matchesSearch.
    now rewrite lower_empty, includes_empty.
  - intros t Ht. now apply filter_In in Ht.
  - apply filter_twice.
Qed.

End Search.

(** The filter on two transactions, under ASCII lower-casing: the query
    [SAL] keeps the salary only, through its description and its category. *)
Lemma filteredTransactions_spec_witness :
  let coffee := Transaction.mk "1" "Coffee" 50 "Food" "2026-01-02T00:00:00.000Z" expense None in
  let salary := Transaction.mk "2" "Salary" 1000 "Salary" "2026-01-01T00:00:00.000Z" income None in
  @toLowerCase ExampleHost.host "" = ""%string
  /\ @filteredTransactions ExampleHost.host [coffee; salary] "SAL" = [salary]
  /\ @filteredTransactions ExampleHost.host [coffee; salary] "" = [coffee; salary]
  /\ Subseq (@filteredTransactions ExampleHost.host [coffee; salary] "SAL")
            [coffee; salary].
Proof.
  intros coffee salary.
  pose proof (@filteredTransactions_spec ExampleHost.host [coffee; salary] "SAL"
                eq_refl) as H.
  repeat apply conj.
  - reflexivity.
  - reflexivity.
  - apply H.
  - apply H.
Defined.

(** ** The record store: running a handler *)

Ltac run_handler :=
  unfold Run.next, Run.effects, Run.throws,
    fetchData, addTransaction, deleteTransaction, addGoal, deleteGoal,
    Run.try_finally, Run.try_catch, Run.bind, Run.await, Run.set, Run.emit,
    Run.throw, Run.ret, JS.await;
  cbn.

Lemma setTransactions_same (r : State.t) :
  State.setTransactions (State.transactions r) r = r.
Proof. now destruct r. Qed.

Lemma setGoals_same (r : State.t) : State.setGoals (State.goals r) r = r.
Proof. now destruct r. Qed.

Lemma truthy_false (s : string) : JS.truthy s = false <-> s = ""%string.
Proof. destruct s; cbn; split; congruence. Qed.

Lemma filter_id_absent (id : string) (ts : list Transaction.t) :
  (forall t, In t ts -> Transaction.id t <> id) ->
  filter (fun t => negb (String.eqb (Transaction.id t) id)) ts = ts.
Proof.
  intros Habs. apply filter_all. intros t Ht.
  apply negb_true_iff, String.eqb_neq. now apply Habs.
Qed.

(** C9. Deleting an identifier that no transaction of the list carries
    changes nothing and throws nothing, whatever the remote call answers:
    on success the filter keeps every transaction, on failure no update is
    made. *)
Theorem deleteTransaction_absent_id (db : Remote.t) (id : string) (r : State.t)
    (absent : forall t, In t (State.transactions r) -> Transaction.id t <> id) :
  Run.throws (deleteTransaction db id) r = false
  /\ State.transactions (Run.next (deleteTransaction db id) r) = State.transactions r
  /\ Run.next (deleteTransaction db id) r = r.
Proof.
  split.
  { run_handler.
    destruct (Remote.delete_transaction db id) as [[d [e|]]|e]; reflexivity. }
  assert (E : Run.next (deleteTransaction db id) r = r).
  { run_handler.
    destruct (Remote.delete_transaction db id) as [[d [e|]]|e]; cbn;
      try reflexivity.
    rewrite (filter_id_absent id _ absent). apply setTransactions_same. }
  now rewrite E.
Qed.

Section Store.

Context {host : Host}.

(** C5. When the remote call of [addTransaction], [deleteTransaction],
    [addGoal] or [deleteGoal] fails (a rejected promise or a result with an
    [error]), the state after the handler is the state before it: the list
    of transactions and the list of goals are unchanged.  Hence, when one
    of the two lists has changed, the call had not failed. *)
Theorem failed_call_keeps_lists (db : Remote.t) (now id : string) (r : State.t) :
  (failed (Remote.insert_transaction db (newTransaction now r)) ->
     Run.next (addTransaction db now) r = r
     /\ State.transactions (Run.next (addTransaction db now) r) = State.transactions r
     /\ State.goals (Run.next (addTransaction db now) r) = State.goals r)
  /\ (failed (Remote.delete_transaction db id) ->
     Run.next (deleteTransaction db id) r = r
     /\ State.transactions (Run.next (deleteTransaction db id) r) = State.transactions r
     /\ State.goals (Run.next (deleteTransaction db id) r) = State.goals r)
  /\ (failed (Remote.insert_goal db (newGoal r)) ->
     Run.next (addGoal db) r = r
     /\ State.transactions (Run.next (addGoal db) r) = State.transactions r
     /\ State.goals (Run.next (addGoal db) r) = State.goals r)
  /\ (failed (Remote.delete_goal db id) ->
     Run.next (deleteGoal db id) r = r
     /\ State.transactions (Run.next (deleteGoal db id) r) = State.transactions r
     /\ State.goals (Run.next (deleteGoal db id) r) = State.goals r)
  /\ (State.transactions (Run.next (addTransaction db now) r) <> State.transactions r ->
      ~ failed (Remote.insert_transaction db (newTransaction now r)))
  /\ (State.transactions (Run.next (deleteTransaction db id) r) <> State.transactions r ->
      ~ failed (Remote.delete_transaction db id))
  /\ (State.goals (Run.next (addGoal db) r) <> State.goals r ->
      ~ failed (Remote.insert_goal db (newGoal r)))
  /\ (State.goals (Run.next (deleteGoal db id) r) <> State.goals r ->
      ~ failed (Remote.delete_goal db id)).
Proof.
  assert (A : failed (Remote.insert_transaction db (newTransaction now r)) ->
              Run.next (addTransaction db now) r = r).
  { run_handler.
    destruct (negb (JS.truthy (State.description r)) || negb (JS.truthy (State.amount r)));
      [reflexivity|].
    destruct (Remote.insert_transaction db _) as [[data [e|]]|e]; cbn;
      intros F; try reflexivity; contradiction. }
  assert (B : failed (Remote.delete_transaction db id) ->
              Run.next (deleteTransaction db id) r = r).
  { run_handler.
    destruct (Remote.delete_transaction db id) as [[data [e|]]|e]; cbn;
      intros F; try reflexivity; contradiction. }
  assert (C : failed (Remote.insert_goal db (newGoal r)) ->
              Run.next (addGoal db) r = r).
  { run_handler.
    destruct (negb (JS.truthy (State.goalName r)) || negb (JS.truthy (State.goalTarget r)));
      [reflexivity|].
    destruct (Remote.insert_goal db _) as [[data [e|]]|e]; cbn;
      intros F; try reflexivity; contradiction. }
  assert (D : failed (Remote.delete_goal db id) ->
              Run.next (deleteGoal db id) r = r).
  { run_handler.
    destruct (Remote.delete_goal db id) as [[data [e|]]|e]; cbn;
      intros F; try reflexivity; contradiction. }
  repeat apply conj.
  - intros F. now rewrite (A F).
  - intros F. now rewrite (B F).
  - intros F. now rewrite (C F).
  - intros F. now rewrite (D F).
  - intros Hne F. apply Hne. now rewrite (A F).
  - intros Hne F. apply Hne. now rewrite (B F).
  - intros Hne F. apply Hne. now rewrite (C F).
  - intros Hne F. apply Hne. now rewrite (D F).
Qed.

(** X2. No handler lets an exception escape: every [throw] is inside a [try]
    whose [catch] only logs. *)
Lemma handlers_do_not_throw (db : Remote.t) (now id : string) (r : State.t) :
  Run.throws (fetchData db) r = false
  /\ Run.throws (addTransaction db now) r = false
  /\ Run.throws (deleteTransaction db id) r = false
  /\ Run.throws (addGoal db) r = false
  /\ Run.throws (deleteGoal db id) r = false.
Proof.
  repeat apply conj; run_handler.
  - destruct (Promise_all _ _) as [[[d1 [e1|]] [d2 [e2|]]]|e]; reflexivity.
  - destruct (negb _ || negb _); [reflexivity|].
    destruct (Remote.insert_transaction db _) as [[[[d0 ds]|] [e|]]|e]; reflexivity.
  - destruct (Remote.delete_transaction db id) as [[d [e|]]|e]; reflexivity.
  - destruct (negb _ || negb _); [reflexivity|].
    destruct (Remote.insert_goal db _) as [[[[d0 ds]|] [e|]]|e]; reflexivity.
  - destruct (Remote.delete_goal db id) as [[d [e|]]|e]; reflexivity.
Qed.

(** C10. [addTransaction] never touches the category and the type
    selections.  It leaves the description and the amount fields as they
    are when the form is rejected (one of the two is empty) and when the
    remote insert fails; it empties both when the insert answers with the
    created row; so a changed field means that the form was accepted and
    that the insert answered with a created row. *)
Theorem addTransaction_form_fields (db : Remote.t) (now : string) (r : State.t) :
  let s' := Run.next (addTransaction db now) r in
  State.category s' = State.category r
  /\ State.type s' = State.type r
  /\ (State.description r = ""%string \/ State.amount r = ""%string ->
      State.description s' = State.description r
      /\ State.amount s' = State.amount r)
  /\ (failed (Remote.insert_transaction db (newTransaction now r)) ->
      State.description s' = State.description r
      /\ State.amount s' = State.amount r)
  /\ (forall row,
        State.description r <> ""%string -> State.amount r <> ""%string ->
        created (Remote.insert_transaction db (newTransaction now r)) row ->
        State.description s' = ""%string /\ State.amount s' = ""%string)
  /\ (State.description s' <> State.description r
      \/ State.amount s' <> State.amount r ->
      State.description r <> ""%string /\ State.amount r <> ""%string
      /\ exists row, created (Remote.insert_transaction db (newTransaction now r)) row).
Proof.
  run_handler.
  destruct (State.description r) as [|c d] eqn:Ed;
    [cbn; rewrite ?Ed; repeat apply conj; intros;
     solve [reflexivity | intuition congruence]|].
  destruct (State.amount r) as [|c' a] eqn:Ea;
    [cbn; rewrite ?Ed, ?Ea; repeat apply conj; intros;
     solve [reflexivity | intuition congruence]|].
  cbn.
  destruct (Remote.insert_transaction db _) as [[[[d0 ds]|] [e|]]|e]; cbn;
    rewrite ?Ed, ?Ea; repeat apply conj; intros;
    try solve [reflexivity | discriminate | contradiction
              | intuition congruence | now exists d0].
  repeat apply conj; [discriminate | discriminate | now exists d0].
Qed.

End Store.

(** Every call failing, the four handlers leave the example render as it is. *)
Lemma failed_call_keeps_lists_witness :
  let h := ExampleHost.host in
  let db := ExampleRemote.failing "Failed to fetch" in
  failed (Remote.insert_transaction db (newTransaction Example.now Example.render))
  /\ failed (Remote.delete_transaction db "t1")
  /\ failed (Remote.insert_goal db (newGoal Example.render))
  /\ failed (Remote.delete_goal db "t1")
  /\ Run.next (addTransaction db Example.now) Example.render = Example.render
  /\ Run.next (deleteTransaction db "t1") Example.render = Example.render
  /\ Run.next (addGoal db) Example.render = Example.render
  /\ Run.next (deleteGoal db "t1") Example.render = Example.render.
Proof.
  intros h db.
  pose proof (@failed_call_keeps_lists h db Example.now "t1" Example.render)
    as [A [B [C [D _]]]].
  repeat apply conj; try exact I.
  - apply (A I).
  - apply (B I).
  - apply (C I).
  - apply (D I).
Defined.

(** Deleting the identifier [t9], which neither transaction carries. *)
Lemma deleteTransaction_absent_id_witness :
  let db := ExampleRemote.accepting [] [] "t3" Example.now in
  (Transaction.id Example.coffee =? "t9")%string = false
  /\ (Transaction.id Example.salary =? "t9")%string = false
  /\ Run.throws (deleteTransaction db "t9") Example.render = false
  /\ State.transactions (Run.next (deleteTransaction db "t9") Example.render)
     = [Example.coffee; Example.salary].
Proof.
  intros db.
  assert (absent : forall t, In t (State.transactions Example.render) ->
                             Transaction.id t <> "t9"%string).
  { intros t [<- | [<- | []]]; discriminate. }
  pose proof (deleteTransaction_absent_id db "t9" Example.render absent)
    as [A [B _]].
  repeat apply conj; [reflexivity | reflexivity | exact A | exact B].
Defined.

(** The form of the example render, accepted and stored: both text fields are
    emptied, the selections stay. *)
Lemma addTransaction_form_fields_witness :
  let h := ExampleHost.host in
  let db := ExampleRemote.accepting [] [] "t3" Example.now in
  let s' := Run.next (addTransaction db Example.now) Example.render in
  State.description s' = ""%string /\ State.amount s' = ""%string
  /\ State.category s' = "Food"%string /\ State.type s' = expense.
Proof.
  intros h db s'.
  pose proof (@addTransaction_form_fields h db Example.now Example.render)
    as [A [B [_ [_ [C _]]]]].
  repeat apply conj.
  - eapply C; [discriminate | discriminate | reflexivity].
  - eapply C; [discriminate | discriminate | reflexivity].
  - exact A.
  - exact B.
Defined.

(** ** Ordering of the two collections *)

Section Chains.

Context {A : Type} (R : A -> A -> Prop).
Hypothesis R_trans : forall x y z, R x y -> R y z -> R x z.

Lemma chain_tail (x : A) (l : list A) : chain R (x :: l) -> chain R l.
Proof. destruct l as [|y l]; cbn; tauto. Qed.

Lemma chain_head (x : A) (l : list A) :
  chain R (x :: l) -> forall y, In y l -> R x y.
Proof.
  revert x. induction l as [|z l IH]; intros x H y Hy; [contradiction|].
  destruct H as [Hxz Hl]. destruct Hy as [<- | Hy]; [assumption|].
  apply (R_trans _ _ _ Hxz). now apply IH.
Qed.

Lemma chain_cons (x : A) (l : list A) :
  (forall y, In y l -> R x y) -> chain R l -> chain R (x :: l).
Proof.
  destruct l as [|z l]; intros Hx Hl; [exact I|].
  split; [apply Hx; now left | exact Hl].
Qed.

Lemma chain_filter (f : A -> bool) (l : list A) :
  chain R l -> chain R (filter f l).
Proof.
  induction l as [|x l IH]; intros H; [exact I|].
  cbn [filter]. pose proof (IH (chain_tail _ _ H)) as Hf.
  destruct (f x); [|exact Hf].
  apply chain_cons; [|exact Hf].
  intros y Hy. apply filter_In in Hy as [Hy _]. now apply (chain_head _ _ H).
Qed.

Lemma chain_snoc (l : list A) (y : A) :
  chain R l -> (forall x, In x l -> R x y) -> chain R (l ++ [y]).
Proof.
  induction l as [|x l IH]; intros H Hy; [exact I|].
  cbn [app]. destruct l as [|z l].
  - cbn. split; [apply Hy; now left | exact I].
  - destruct H as [Hxz Hl]. split; [exact Hxz|].
    apply IH; [exact Hl|]. intros w Hw. apply Hy. now right.
Qed.

End Chains.

Section Ordering.

Context {host : Host}.

Lemma created_le_trans (a b c : option string) :
  created_le a b -> created_le b c -> created_le a c.
Proof.
  destruct a, b, c; cbn; try tauto. apply Z.le_trans.
Qed.

Lemma date_ge_trans (x y z : Transaction.t) :
  (instant (Transaction.date y) <= instant (Transaction.date x))%Z ->
  (instant (Transaction.date z) <= instant (Transaction.date y))%Z ->
  (instant (Transaction.date z) <= instant (Transaction.date x))%Z.
Proof. lia. Qed.

(** C7, as amended.  With the transactions in descending order of [date]
    and the goals in ascending order of [created_at]:
    - [fetchData] keeps both orders when its two replies are in the order
      it asks for (and when it fails, the lists being left alone);
    - [addTransaction] keeps them when the created transaction is not dated
      before the first transaction of the list;
    - [addGoal] keeps them when the created goal is not created before a
      goal of the list;
    - [deleteTransaction] and [deleteGoal] always keep them. *)
Theorem ordering_kept (db : Remote.t) (now id : string) (r : State.t)
    (sorted_transactions : dateDescending (State.transactions r))
    (sorted_goals : createdAscending (State.goals r)) :
  (fetch_ordered db ->
     dateDescending (State.transactions (Run.next (fetchData db) r))
     /\ createdAscending (State.goals (Run.next (fetchData db) r)))
  /\ (not_before_first db now r ->
     dateDescending (State.transactions (Run.next (addTransaction db now) r))
     /\ createdAscending (State.goals (Run.next (addTransaction db now) r)))
  /\ (dateDescending (State.transactions (Run.next (deleteTransaction db id) r))
     /\ createdAscending (State.goals (Run.next (deleteTransaction db id) r)))
  /\ (not_before_goals db r ->
     dateDescending (State.transactions (Run.next (addGoal db) r))
     /\ createdAscending (State.goals (Run.next (addGoal db) r)))
  /\ (dateDescending (State.transactions (Run.next (deleteGoal db id) r))
     /\ createdAscending (State.goals (Run.next (deleteGoal db id) r))).
Proof.
  repeat apply conj.
  - intros [Ht Hg]. run_handler.
    destruct (Remote.select_transactions db) as [[d1 [e1|]]|e1];
      destruct (Remote.select_goals db) as [[d2 [e2|]]|e2]; cbn;
      try (split; assumption).
    split; [apply (Ht _ eq_refl) | apply (Hg _ eq_refl)].
  - intros Hnew. run_handler.
    destruct (negb _ || negb _); [split; assumption|].
    unfold not_before_first in Hnew.
    destruct (Remote.insert_transaction db _) as [[[[d0 ds]|] [e|]]|e]; cbn;
      try (split; assumption).
    cbn in Hnew. split; [|assumption].
    unfold dateDescending in *. cbn [chain].
    destruct (State.transactions r) as [|first rest] eqn:E; [exact I|].
    split; [now apply (Hnew d0 first rest) | exact sorted_transactions].
  - run_handler.
    destruct (Remote.delete_transaction db id) as [[d [e|]]|e]; cbn;
      try assumption.
    apply chain_filter; [|assumption].
    intros x y z. apply date_ge_trans.
  - run_handler.
    destruct (Remote.delete_transaction db id) as [[d [e|]]|e]; cbn; assumption.
  - intros Hnew. run_handler.
    destruct (negb _ || negb _); [split; assumption|].
    unfold not_before_goals in Hnew.
    destruct (Remote.insert_goal db _) as [[[[d0 ds]|] [e|]]|e]; cbn;
      try (split; assumption).
    cbn in Hnew. split; [assumption|].
    apply chain_snoc; [assumption|].
    intros g Hg. now apply Hnew.
  - run_handler.
    destruct (Remote.delete_goal db id) as [[d [e|]]|e]; cbn; assumption.
  - run_handler.
    destruct (Remote.delete_goal db id) as [[d [e|]]|e]; cbn;
      try assumption.
    apply chain_filter; [|assumption].
    intros x y z. apply created_le_trans.
Qed.

End Ordering.

(** C7, as stated, fails: [addTransaction] puts the created transaction first
    without comparing dates.  With a stored transaction dated 2030 (written,
    say, by a client whose clock runs ahead) and the insertion made on
    2026-11-02, the list is in descending order of date before the insertion
    and is not after it. *)
Lemma prepend_breaks_date_order :
  let h := ExampleHost.host in
  let late :=
    Transaction.mk "t0" "Rent" 700 "Other" "2030-01-01T00:00:00.000Z" expense None in
  let r := State.setTransactions [late] Example.render in
  let db := ExampleRemote.accepting [late] [] "t3" Example.now in
  let s' := Run.next (addTransaction db Example.now) r in
  dateDescending (State.transactions r)
  /\ createdAscending (State.goals r)
  /\ State.transactions s'
     = [ Transaction.mk "t3" "Tea" 20 "Food" Example.now expense (Some Example.now);
         late ]
  /\ ~ dateDescending (State.transactions s').
Proof.
  intros h late r db s'. repeat apply conj.
  - exact I.
  - exact I.
  - reflexivity.
  - intros [H _]. vm_compute in H. apply H. reflexivity.
Qed.

(** The example render, kept in order by the five handlers: the store
    answers in order, and the insertions are made after every stored date. *)
Lemma ordering_kept_witness :
  let h := ExampleHost.host in
  let db := ExampleRemote.accepting [Example.coffee; Example.salary] [Example.bike]
                                    "n1" Example.now in
  let after (f : State.t -> Handler unit) :=
    dateDescending (State.transactions (Run.next f Example.render))
    /\ createdAscending (State.goals (Run.next f Example.render)) in
  dateDescending (State.transactions Example.render)
  /\ createdAscending (State.goals Example.render)
  /\ after (fetchData db)
  /\ after (addTransaction db Example.now)
  /\ after (deleteTransaction db "t1")
  /\ after (addGoal db)
  /\ after (deleteGoal db "g1").
Proof.
  intros h db after.
  assert (St : dateDescending (State.transactions Example.render)).
  { split; [vm_compute; discriminate | exact I]. }
  assert (Sg : createdAscending (State.goals Example.render)) by exact I.
  assert (F : fetch_ordered db).
  { split; intros res E; injection E as <-; [exact St | exact Sg]. }
  assert (N : not_before_first db Example.now Example.render).
  { intros row first rest C E. cbn in C. subst row. injection E as <- _.
    vm_compute. discriminate. }
  assert (G : not_before_goals db Example.render).
  { intros row g C [<- | []]. cbn in C. subst row. vm_compute. discriminate. }
  pose proof (@ordering_kept h db Example.now "t1" Example.render St Sg)
    as [A [B [C _]]].
  pose proof (@ordering_kept h db Example.now "g1" Example.render St Sg)
    as [_ [_ [_ [D E]]]].
  split; [exact St|]. split; [exact Sg|].
  split; [exact (A F)|]. split; [exact (B N)|]. split; [exact C|].
  split; [exact (D G) | exact E].
Defined.

(** ** A goal with target 0 *)

Section ZeroTarget.

Context {host : Host}.

Lemma addGoal_rejected (db : Remote.t) (r : State.t) :
  State.goalName r = ""%string \/ State.goalTarget r = ""%string ->
  Run.next (addGoal db) r = r /\ Run.effects (addGoal db) r = [].
Proof.
  intros H. run_handler.
  destruct H as [-> | ->]; cbn; [now split|].
  destruct (State.goalName r); now split.
Qed.

Lemma addGoal_created (db : Remote.t) (r : State.t) (row : SavingGoal.t) :
  State.goalName r <> ""%string -> State.goalTarget r <> ""%string ->
  created (Remote.insert_goal db (newGoal r)) row ->
  State.goals (Run.next (addGoal db) r) = State.goals r ++ [row].
Proof.
  intros Hn Ht. run_handler.
  destruct (State.goalName r); [contradiction|].
  destruct (State.goalTarget r); [contradiction|]. cbn.
  destruct (Remote.insert_goal db _) as [[[[d0 ds]|] [e|]]|e]; cbn;
    try contradiction.
  now intros ->.
Qed.

(** C8. [addGoal] is a no-op for every remote store exactly when the name
    or the target text is empty: it has no other guard.  So the text [0],
    which [parseFloat] reads as [0], is sent; once the store has created
    the goal with the target it was sent, the goal is in the list with
    [target_amount = 0], and [progress] divides the balance by that zero:
    the result is NaN at balance 0, 100 (hence achieved) at a positive
    balance and -Infinity at a negative one. *)
Theorem zero_target_reaches_division (db : Remote.t) (r : State.t)
    (row : SavingGoal.t)
    (parse_zero : parseFloat "0" = 0%float)
    (named : State.goalName r <> ""%string)
    (target_text : State.goalTarget r = "0"%string)
    (stored : created (Remote.insert_goal db (newGoal r)) row)
    (as_sent : SavingGoal.target_amount row = NewGoal.target_amount (newGoal r)) :
  (forall r', (forall db', Run.next (addGoal db') r' = r')
              <-> State.goalName r' = ""%string \/ State.goalTarget r' = ""%string)
  /\ NewGoal.target_amount (newGoal r) = 0%float
  /\ State.goals (Run.next (addGoal db) r) = State.goals r ++ [row]
  /\ SavingGoal.target_amount row = 0%float
  /\ (forall b, progress b row = JS.Math_min ((b / 0) * 100)%float 100%float)
  /\ is_nan (progress 0%float row) = true
  /\ progress 1%float row = 100%float
  /\ isAchieved (progress 1%float row) = true
  /\ progress (-1)%float row = neg_infinity.
Proof.
  assert (Z : SavingGoal.target_amount row = 0%float).
  { rewrite as_sent. unfold newGoal. cbn. now rewrite target_text. }
  split.
  { intros r'. split; [|intros H db'; now apply addGoal_rejected].
    intros H.
    destruct (State.goalName r') as [|c n] eqn:En; [now left|].
    destruct (State.goalTarget r') as [|c' t] eqn:Et; [now right|].
    exfalso.
    pose (g := SavingGoal.mk "" "" 0%float None).
    pose (db' := Remote.mk (JS.Rejected "") (JS.Rejected "")
                   (fun _ => JS.Rejected "") (fun _ => JS.Rejected "")
                   (fun _ => JS.Fulfilled (Response.mk (Some (g, [])) None))
                   (fun _ => JS.Rejected "")).
    assert (E : State.goals (Run.next (addGoal db') r') = State.goals r' ++ [g]).
    { apply addGoal_created; [rewrite En | rewrite Et | reflexivity]; discriminate. }
    rewrite H in E. apply (f_equal (@List.length _)) in E.
    rewrite List.length_app in E. cbn in E. lia. }
  split; [unfold newGoal; cbn; now rewrite target_text|].
  split; [apply addGoal_created; [assumption | rewrite target_text; discriminate | assumption]|].
  split; [exact Z|].
  unfold progress, isAchieved. rewrite Z.
  repeat split.
Qed.

End ZeroTarget.

(** The goal [Zero] with the target text [0], created by the example store:
    it is listed with target 0 and its progress at balance 0 is NaN. *)
Lemma zero_target_reaches_division_witness :
  let h := ExampleHost.host in
  let r := State.setGoalTarget "0" (State.setGoalName "Zero" Example.render) in
  let db := ExampleRemote.accepting [] [] "g2" Example.now in
  let zero := SavingGoal.mk "g2" "Zero" 0 (Some Example.now) in
  parseFloat "0" = 0%float
  /\ State.goals (Run.next (addGoal db) r) = [Example.bike; zero]
  /\ is_nan (progress (balance []) zero) = true.
Proof.
  intros h r db zero.
  assert (named : State.goalName r <> ""%string) by discriminate.
  pose proof (@zero_target_reaches_division h db r zero eq_refl named eq_refl
                eq_refl eq_refl) as [_ [_ [A [_ [_ [B _]]]]]].
  split; [reflexivity|]. split; [exact A | exact B].
Defined.

(** ** Binary64 arithmetic

    What the two claims about the progress of a goal need of IEEE 754
    division and multiplication, from the specification of the primitive
    operations. *)

Section Binary64.

Local Open Scope Z_scope.

(** fexp of binary64 *)
Lemma fexp_64 (e : Z) : fexp prec emax e = Z.max (e - 53) (-1074).
Proof. reflexivity. Qed.

Lemma pow2_pos (k : Z) : 0 <= k -> 0 < 2 ^ k.
Proof. intros. apply Z.pow_pos_nonneg; lia. Qed.

Lemma pow2_le (a b : Z) : 0 <= a <= b -> 2 ^ a <= 2 ^ b.
Proof. intros. apply Z.pow_le_mono_r; lia. Qed.

Lemma pow2_lt (a b : Z) : 0 <= a < b -> 2 ^ a < 2 ^ b.
Proof. intros. apply Z.pow_lt_mono_r; lia. Qed.

Lemma pow2_add (a b : Z) : 0 <= a -> 0 <= b -> 2 ^ (a + b) = 2 ^ a * 2 ^ b.
Proof. intros. apply Z.pow_add_r; lia. Qed.

Lemma pow2_succ (a : Z) : 0 <= a -> 2 ^ (a + 1) = 2 * 2 ^ a.
Proof. intros. rewrite pow2_add by lia. change (2 ^ 1) with 2. lia. Qed.

(** digits *)
Lemma digits2_pos_spec (p : positive) :
  2 ^ (Z.pos (digits2_pos p) - 1) <= Z.pos p < 2 ^ Z.pos (digits2_pos p).
Proof.
  induction p as [p IH|p IH|]; cbn [digits2_pos].
  - rewrite Pos2Z.inj_succ.
    replace (Z.succ (Z.pos (digits2_pos p)) - 1) with ((Z.pos (digits2_pos p) - 1) + 1) by lia.
    unfold Z.succ. rewrite !pow2_succ by lia. lia.
  - rewrite Pos2Z.inj_succ.
    replace (Z.succ (Z.pos (digits2_pos p)) - 1) with ((Z.pos (digits2_pos p) - 1) + 1) by lia.
    unfold Z.succ. rewrite !pow2_succ by lia. lia.
  - cbn. lia.
Qed.

Lemma Zdigits2_spec (m : Z) :
  0 < m -> 1 <= Zdigits2 m /\ 2 ^ (Zdigits2 m - 1) <= m < 2 ^ Zdigits2 m.
Proof.
  destruct m as [|p|p]; try lia. intros _. cbn [Zdigits2].
  split; [lia | apply digits2_pos_spec].
Qed.

Lemma Zdigits2_nonneg (m : Z) : 0 <= Zdigits2 m.
Proof. destruct m; cbn; lia. Qed.

Lemma Zdigits2_unique (m d : Z) :
  0 < m -> 2 ^ (d - 1) <= m < 2 ^ d -> Zdigits2 m = d.
Proof.
  intros Hm [Hlo Hhi].
  destruct (Zdigits2_spec m Hm) as [H1 [Hlo' Hhi']].
  assert (0 < d).
  { destruct (Z_lt_le_dec 0 d); [assumption|].
    assert (2 ^ d <= 1).
    { destruct (Z.eq_dec d 0) as [->|]; [cbn; lia|].
      rewrite Z.pow_neg_r by lia. lia. }
    lia. }
  destruct (Z_lt_le_dec (Zdigits2 m) d).
  - assert (2 ^ Zdigits2 m <= 2 ^ (d - 1)) by (apply pow2_le; lia). lia.
  - destruct (Z_lt_le_dec d (Zdigits2 m)); [|lia].
    assert (2 ^ d <= 2 ^ (Zdigits2 m - 1)) by (apply pow2_le; lia). lia.
Qed.

Lemma Zdigits2_small (m n : Z) : 0 <= m -> Zdigits2 m <= n -> m / 2 ^ n = 0.
Proof.
  intros Hm Hn. destruct (Z.eq_dec m 0) as [->|]; [apply Z.div_0_l; pose proof (pow2_pos n); pose proof (Zdigits2_nonneg 0); cbn in *; lia|].
  destruct (Zdigits2_spec m) as [H1 [Hlo Hhi]]; [lia|].
  apply Z.div_small. split; [lia|].
  assert (2 ^ Zdigits2 m <= 2 ^ n) by (apply pow2_le; lia). lia.
Qed.

Lemma Zdigits2_div (m n : Z) :
  0 < m -> 0 <= n < Zdigits2 m ->
  0 < m / 2 ^ n /\ Zdigits2 (m / 2 ^ n) = Zdigits2 m - n.
Proof.
  intros Hm Hn.
  destruct (Zdigits2_spec m Hm) as [H1 [Hlo Hhi]].
  pose proof (pow2_pos n ltac:(lia)) as Hp.
  assert (Hq : 2 ^ (Zdigits2 m - n - 1) <= m / 2 ^ n < 2 ^ (Zdigits2 m - n)).
  { split.
    - apply Z.div_le_lower_bound; [lia|].
      rewrite <- pow2_add by lia.
      replace (n + (Zdigits2 m - n - 1)) with (Zdigits2 m - 1) by lia. lia.
    - apply Z.div_lt_upper_bound; [lia|].
      rewrite <- pow2_add by lia.
      replace (n + (Zdigits2 m - n)) with (Zdigits2 m) by lia. lia. }
  assert (0 < m / 2 ^ n).
  { pose proof (pow2_pos (Zdigits2 m - n - 1) ltac:(lia)). lia. }
  split; [assumption|]. now apply Zdigits2_unique.
Qed.

Lemma Zdigits2_succ (m : Z) :
  0 <= m ->
  Zdigits2 (m + 1) = Zdigits2 m
  \/ (Zdigits2 (m + 1) = Zdigits2 m + 1 /\ m + 1 = 2 ^ Zdigits2 m).
Proof.
  intros Hm. destruct (Z.eq_dec m 0) as [->|Hne]; [right; cbn; lia|].
  destruct (Zdigits2_spec m) as [H1 [Hlo Hhi]]; [lia|].
  destruct (Z.eq_dec (m + 1) (2 ^ Zdigits2 m)) as [E|E].
  - right. split; [|assumption]. apply Zdigits2_unique; [lia|].
    replace (Zdigits2 m + 1 - 1) with (Zdigits2 m) by lia.
    rewrite pow2_succ by lia. lia.
  - left. apply Zdigits2_unique; lia.
Qed.

(** shifting *)
Lemma iter_pos_nat {A : Type} (f : A -> A) (p : positive) (x : A) :
  iter_pos f p x = Nat.iter (Pos.to_nat p) f x.
Proof.
  revert x. induction p as [p IH|p IH|]; intros x; cbn [iter_pos].
  - rewrite !IH, Pos2Nat.inj_xI.
    replace (S (2 * Pos.to_nat p))%nat with (S (Pos.to_nat p + Pos.to_nat p))%nat by lia.
    now rewrite Nat.iter_succ_r, Nat.iter_add.
  - rewrite !IH, Pos2Nat.inj_xO.
    replace (2 * Pos.to_nat p)%nat with (Pos.to_nat p + Pos.to_nat p)%nat by lia.
    now rewrite Nat.iter_add.
  - reflexivity.
Qed.

Lemma shr_1_spec (x : shr_record) :
  0 <= shr_m x ->
  shr_m (shr_1 x) = shr_m x / 2
  /\ shr_r (shr_1 x) = Z.odd (shr_m x)
  /\ shr_s (shr_1 x) = shr_r x || shr_s x.
Proof.
  destruct x as [m r s]. cbn [shr_m shr_r shr_s]. intros Hm.
  rewrite <- Z.div2_div.
  destruct m as [|[p|p|]|p]; try lia; cbn; repeat split.
Qed.

Lemma shr_iter_m (n : nat) (x : shr_record) :
  0 <= shr_m x ->
  shr_m (Nat.iter n shr_1 x) = shr_m x / 2 ^ Z.of_nat n.
Proof.
  intros Hm. induction n as [|n IH].
  - cbn. now rewrite Z.div_1_r.
  - rewrite Nat.iter_succ.
    assert (0 <= shr_m (Nat.iter n shr_1 x)).
    { rewrite IH. apply Z.div_pos; [lia | apply pow2_pos; lia]. }
    destruct (shr_1_spec (Nat.iter n shr_1 x)) as [E _]; [assumption|].
    rewrite E, IH, Nat2Z.inj_succ. unfold Z.succ. rewrite pow2_succ by lia.
    rewrite Z.div_div; [f_equal; lia | pose proof (pow2_pos (Z.of_nat n)); lia | lia].
Qed.

Lemma shr_iter_r (n : nat) (x : shr_record) :
  0 <= shr_m x ->
  shr_r (Nat.iter (S n) shr_1 x) = Z.odd (shr_m x / 2 ^ Z.of_nat n).
Proof.
  intros Hm. rewrite Nat.iter_succ.
  assert (0 <= shr_m (Nat.iter n shr_1 x)).
  { rewrite shr_iter_m by assumption. apply Z.div_pos; [lia | apply pow2_pos; lia]. }
  destruct (shr_1_spec (Nat.iter n shr_1 x)) as [_ [E _]]; [assumption|].
  now rewrite E, shr_iter_m.
Qed.

Lemma shr_nat (x : shr_record) (e n : Z) :
  shr x e n = (Nat.iter (Z.to_nat n) shr_1 x, e + Z.max n 0).
Proof.
  destruct n as [|p|p]; cbn [shr Z.to_nat].
  - cbn. f_equal; lia.
  - rewrite iter_pos_nat. f_equal; lia.
  - cbn. f_equal; lia.
Qed.

Lemma shr_record_of_loc_m (m : Z) (l : location) :
  shr_m (shr_record_of_loc m l) = m.
Proof. destruct l as [|[]]; reflexivity. Qed.

Lemma loc_of_shr_record_of_loc (m : Z) (l : location) :
  loc_of_shr_record (shr_record_of_loc m l) = l.
Proof. destruct l as [|[]]; reflexivity. Qed.

Lemma shr_record_exact (m : Z) (l : location) :
  shr_r (shr_record_of_loc m l) = false ->
  shr_s (shr_record_of_loc m l) = false -> l = loc_Exact.
Proof. destruct l as [|[]]; cbn; congruence. Qed.

(** rounding to nearest, ties to even *)
Lemma round_nearest_even_bounds (x : shr_record) :
  let m' := round_nearest_even (shr_m x) (loc_of_shr_record x) in
  shr_m x <= m' <= shr_m x + 1
  /\ (m' = shr_m x + 1 -> shr_r x = true)
  /\ (shr_r x = false -> shr_s x = false -> m' = shr_m x).
Proof.
  destruct x as [m [|] [|]]; cbn; try destruct (Z.even m); repeat split; intros; try lia; try reflexivity.
Qed.


(** the two stages of [binary_round_aux] *)
Lemma binary_round_aux_finish (s : bool) (m e : Z) (l : location) :
  binary_round_aux prec emax s m e l =
  finish s (round_nearest_even (shr_m (fst (shr_fexp prec emax m e l)))
                               (loc_of_shr_record (fst (shr_fexp prec emax m e l))))
         (snd (shr_fexp prec emax m e l)).
Proof.
  unfold binary_round_aux, finish.
  destruct (shr_fexp prec emax m e l) as [mrs' e']. reflexivity.
Qed.

Lemma shr_fexp_nat (m e : Z) (l : location) :
  shr_fexp prec emax m e l =
  (Nat.iter (Z.to_nat (Z.max (Zdigits2 m + e - 53) (-1074) - e)) shr_1
            (shr_record_of_loc m l),
   e + Z.max (Z.max (Zdigits2 m + e - 53) (-1074) - e) 0).
Proof. unfold shr_fexp. now rewrite shr_nat, fexp_64. Qed.


Lemma finish_rounded (s : bool) (m2 E : Z) :
  0 <= m2 ->
  Z.max (Zdigits2 m2 + E - 53) (-1074) <= E
  \/ (Z.max (Zdigits2 m2 + E - 53) (-1074) = E + 1 /\ exists k, 0 < k /\ m2 = 2 * k) ->
  rounded (finish s m2 E) s m2 E.
Proof.
  intros Hm H. unfold finish. rewrite shr_fexp_nat.
  destruct H as [H | [H [k [Hk ->]]]].
  - replace (Z.to_nat _) with O by lia.
    change (Nat.iter 0 shr_1 ?x) with x.
    rewrite shr_record_of_loc_m.
    replace (E + Z.max _ 0) with E by lia.
    destruct m2 as [|p|p]; [left; now split | | lia].
    right. exists p, E. split; [lia|]. split; [rewrite Z.sub_diag; cbn; lia|].
    change (emax - prec) with 971.
    destruct (Z.leb_spec E 971); [left | right]; split; (lia || reflexivity).
  - rewrite H. replace (E + 1 - E) with 1 by lia.
    change (Z.to_nat 1) with 1%nat.
    replace (E + Z.max 1 0) with (E + 1) by lia.
    destruct (shr_1_spec (shr_record_of_loc (2 * k) loc_Exact)) as [Em _];
      [cbn [shr_record_of_loc shr_m]; lia|].
    change (Nat.iter 1 shr_1 ?x) with (shr_1 x).
    rewrite Em. cbn [shr_record_of_loc shr_m].
    replace (2 * k / 2) with k by (symmetry; rewrite Z.mul_comm; apply Z.div_mul; lia).
    destruct k as [|p|p]; try lia.
    right. exists p, (E + 1). split; [lia|].
    split; [replace (E + 1 - E) with 1 by lia; cbn; lia|].
    change (emax - prec) with 971.
    destruct (Z.leb_spec (E + 1) 971); [left | right]; split; (lia || reflexivity).
Qed.

Theorem binary_round_aux_value (s : bool) (m e : Z) (l : location) :
  0 <= m ->
  e <= Z.max (Zdigits2 m + e - 53) (-1074) ->
  let E := Z.max (Zdigits2 m + e - 53) (-1074) in
  exists m2,
    m / 2 ^ (E - e) <= m2 <= m / 2 ^ (E - e) + 1
    /\ (m2 = m / 2 ^ (E - e) + 1 -> ~ (l = loc_Exact /\ m mod 2 ^ (E - e) = 0))
    /\ (l = loc_Exact -> e < E -> 2 * m2 <= m / 2 ^ (E - e - 1) + 1)
    /\ rounded (binary_round_aux prec emax s m e l) s m2 E.
Proof.
  intros Hm Hn E.
  set (n := E - e). assert (Hn0 : 0 <= n) by (unfold n, E; lia).
  rewrite binary_round_aux_finish, shr_fexp_nat. cbn [fst snd].
  fold E. fold n.
  set (x := Nat.iter (Z.to_nat n) shr_1 (shr_record_of_loc m l)).
  replace (e + Z.max n 0) with E by (unfold n; lia).
  assert (Hx : shr_m x = m / 2 ^ n).
  { unfold x. rewrite shr_iter_m; rewrite shr_record_of_loc_m; [|lia].
    now rewrite Z2Nat.id by lia. }
  pose proof (Zdigits2_nonneg m) as Hdnn.
  pose proof (pow2_pos n Hn0) as Hp.
  assert (Hm1 : 0 <= m / 2 ^ n) by (apply Z.div_pos; lia).
  pose proof (round_nearest_even_bounds x) as [Hb [Hup Hex]].
  cbv zeta in Hb, Hup, Hex.
  set (m2 := round_nearest_even (shr_m x) (loc_of_shr_record x)) in *.
  rewrite Hx in Hb, Hup.
  assert (Hr : 1 <= n -> shr_r x = Z.odd (m / 2 ^ (n - 1))).
  { intros H1. unfold x. replace (Z.to_nat n) with (S (Z.to_nat (n - 1))) by lia.
    rewrite shr_iter_r; rewrite shr_record_of_loc_m; [|lia].
    now rewrite Z2Nat.id by lia. }
  exists m2. split; [exact Hb|]. split; [|split].
  - intros Eup [-> Hmod]. specialize (Hup Eup).
    destruct (Z.eq_dec n 0) as [E0|E0].
    + unfold x in Hup. rewrite E0 in Hup. cbn in Hup. discriminate.
    + rewrite Hr in Hup by lia.
      apply Z.mod_divide in Hmod; [|lia]. destruct Hmod as [k Hk].
      replace n with ((n - 1) + 1) in Hk by lia.
      rewrite pow2_succ in Hk by lia.
      assert (m / 2 ^ (n - 1) = 2 * k).
      { rewrite Hk. replace (k * (2 * 2 ^ (n - 1))) with (2 * k * 2 ^ (n - 1)) by lia.
        apply Z.div_mul. pose proof (pow2_pos (n - 1)); lia. }
      rewrite H, Z.odd_mul in Hup. cbn in Hup. discriminate.
  - intros -> Hlt. fold n.
    assert (H1 : 1 <= n) by (unfold n; lia).
    replace (E - e - 1) with (n - 1) by (unfold n; lia).
    set (y := m / 2 ^ (n - 1)).
    assert (Ey : m / 2 ^ n = y / 2).
    { unfold y. replace n with ((n - 1) + 1) at 1 by lia.
      rewrite pow2_succ by lia. rewrite Z.mul_comm.
      rewrite Z.div_div; [reflexivity | pose proof (pow2_pos (n - 1)); lia | lia]. }
    pose proof (Z.div_mod y 2 ltac:(lia)) as Hdm.
    rewrite Zmod_odd in Hdm.
    destruct (Z.eq_dec m2 (m / 2 ^ n + 1)) as [Eup|Eup].
    + specialize (Hup Eup). rewrite (Hr H1) in Hup. fold y in Hup.
      rewrite Hup in Hdm. lia.
    + destruct (Z.odd y); lia.
  - apply finish_rounded; [lia|].
    destruct (Z_lt_le_dec n (Zdigits2 m)) as [Hlt|Hge].
    + assert (Hm' : 0 < m) by (destruct m; cbn in Hlt; lia).
      destruct (Zdigits2_div m n Hm' ltac:(lia)) as [Hpos Hd].
      assert (Hd1 : Zdigits2 (m / 2 ^ n) + E = Zdigits2 m + e) by (unfold n in *; lia).
      destruct (Z.eq_dec m2 (m / 2 ^ n)) as [->|Hne].
      * left. rewrite Hd1. fold E. lia.
      * assert (Em2 : m2 = m / 2 ^ n + 1) by lia.
        destruct (Zdigits2_succ (m / 2 ^ n) Hm1) as [Hs | [Hs Hpw]].
        -- left. rewrite Em2, Hs, Hd1. fold E. lia.
        -- rewrite Em2, Hs.
           destruct (Z_le_gt_dec (Z.max (Zdigits2 (m / 2 ^ n) + 1 + E - 53) (-1074)) E);
             [now left|right].
           split; [unfold E in *; lia|].
           exists (2 ^ (Zdigits2 (m / 2 ^ n) - 1)).
           split; [apply pow2_pos; lia|].
           rewrite Hpw. rewrite <- pow2_succ by lia. f_equal. lia.
    + left. assert (m / 2 ^ n = 0) by (apply Zdigits2_small; lia).
      assert (E = -1074) by (unfold n, E in *; lia).
      assert (Zdigits2 m2 <= 1).
      { assert (m2 = 0 \/ m2 = 1) as [-> | ->] by lia; cbn; lia. }
      lia.
Qed.

(** canonical floats and their order *)

Lemma val_pos (m : positive) (e : Z) : -1074 <= e -> 0 < val m e.
Proof. intros. unfold val. pose proof (pow2_pos (e + 1074)). lia. Qed.

Lemma valid_finite (s : bool) (m : positive) (e : Z) :
  valid_binary (S754_finite s m e) = true ->
  Z.max (Zdigits2 (Z.pos m) + e - 53) (-1074) = e /\ e <= 971.
Proof.
  cbn [SpecFloat.valid_binary]. unfold bounded, canonical_mantissa.
  rewrite andb_true_iff, fexp_64, Z.eqb_eq, Z.leb_le.
  change (emax - prec) with 971. cbn [Zdigits2]. tauto.
Qed.

Lemma canonical_bounds (m : positive) (e : Z) :
  Z.max (Zdigits2 (Z.pos m) + e - 53) (-1074) = e ->
  -1074 <= e /\ Z.pos m < 2 ^ 53 /\ (-1074 < e -> 2 ^ 52 <= Z.pos m).
Proof.
  intros H.
  destruct (Zdigits2_spec (Z.pos m)) as [H1 [Hlo Hhi]]; [lia|].
  split; [lia|]. split.
  - assert (2 ^ Zdigits2 (Z.pos m) <= 2 ^ 53) by (apply pow2_le; lia). lia.
  - intros He. assert (Zdigits2 (Z.pos m) = 53) as E by lia.
    rewrite E in Hlo. exact Hlo.
Qed.

Lemma val_lt_of_exp (m1 m2 : positive) (e1 e2 : Z) :
  Z.max (Zdigits2 (Z.pos m1) + e1 - 53) (-1074) = e1 ->
  Z.max (Zdigits2 (Z.pos m2) + e2 - 53) (-1074) = e2 ->
  e1 < e2 -> val m1 e1 < val m2 e2.
Proof.
  intros C1 C2 Hlt.
  destruct (canonical_bounds _ _ C1) as [L1 [U1 _]].
  destruct (canonical_bounds _ _ C2) as [L2 [_ N2]].
  specialize (N2 ltac:(lia)). unfold val.
  replace (e2 + 1074) with ((e2 - e1 - 1) + 1 + (e1 + 1074)) by lia.
  rewrite (pow2_add (e2 - e1 - 1 + 1) (e1 + 1074)), (pow2_succ (e2 - e1 - 1)) by lia.
  pose proof (pow2_pos (e1 + 1074) ltac:(lia)).
  pose proof (pow2_pos (e2 - e1 - 1) ltac:(lia)).
  change (2 ^ 53) with (2 * 2 ^ 52) in U1.
  assert (0 < 2 ^ 52) by (apply pow2_pos; lia).
  set (c := 2 ^ 52) in *. set (A := 2 ^ (e1 + 1074)) in *.
  set (P := 2 ^ (e2 - e1 - 1)) in *.
  assert (Z.pos m1 * A < 2 * c * A) by nia.
  assert (2 * c * A <= Z.pos m2 * 2 * A) by nia.
  assert (Z.pos m2 * 2 * A * 1 <= Z.pos m2 * 2 * A * P) by (apply Z.mul_le_mono_nonneg_l; nia).
  nia.
Qed.

Lemma SFcompare_pos (m1 m2 : positive) (e1 e2 : Z) :
  Z.max (Zdigits2 (Z.pos m1) + e1 - 53) (-1074) = e1 ->
  Z.max (Zdigits2 (Z.pos m2) + e2 - 53) (-1074) = e2 ->
  SFcompare (S754_finite false m1 e1) (S754_finite false m2 e2)
  = Some (val m1 e1 ?= val m2 e2).
Proof.
  intros C1 C2. cbn [SFcompare]. f_equal.
  destruct (Z.compare_spec e1 e2) as [->|Hlt|Hgt].
  - unfold val. pose proof (canonical_bounds _ _ C2) as [L _].
    pose proof (pow2_pos (e2 + 1074) ltac:(lia)).
    rewrite <- Zmult_compare_compat_r by lia. reflexivity.
  - symmetry. apply Z.compare_lt_iff. now apply val_lt_of_exp.
  - symmetry. apply Z.compare_gt_iff. now apply val_lt_of_exp.
Qed.

Lemma rounded_cases (R : spec_float) (s : bool) (m2 E : Z) :
  rounded R s m2 E -> -1074 <= E ->
  (m2 = 0 /\ R = S754_zero s)
  \/ (0 < m2 /\ 971 <= E + 1 /\ R = S754_infinity s)
  \/ (exists m3 e3, R = S754_finite s m3 e3
                    /\ val m3 e3 = m2 * 2 ^ (E + 1074) /\ 0 < m2).
Proof.
  intros [H | [m3 [e3 [He [Hm [[Hle ->] | [Hgt ->]]]]]]] HE.
  - now left.
  - right. right. exists m3, e3. split; [reflexivity|].
    pose proof (pow2_pos (e3 - E) ltac:(lia)).
    split; [|nia]. unfold val. rewrite <- Hm.
    replace (e3 + 1074) with ((e3 - E) + (E + 1074)) by lia.
    rewrite (pow2_add (e3 - E) (E + 1074)) by lia. ring.
  - right. left. pose proof (pow2_pos (e3 - E) ltac:(lia)).
    repeat split; [nia | lia].
Qed.

(** multiplication by 100 *)

Lemma Prim2SF_100 : Prim2SF 100 = S754_finite false hundred_m (-46).
Proof. reflexivity. Qed.

Lemma hundred_m_bounds : 2 ^ 52 < Z.pos hundred_m < 2 ^ 53.
Proof. split; reflexivity. Qed.

Lemma val_hundred : val hundred_m (-46) = Z.pos hundred_m * 2 ^ 1028.
Proof. reflexivity. Qed.

Lemma Zdigits2_ge (m d : Z) : 0 <= d -> 2 ^ d <= m -> d + 1 <= Zdigits2 m.
Proof.
  intros Hd Hm. pose proof (pow2_pos d Hd).
  destruct (Zdigits2_spec m ltac:(lia)) as [H1 [Hlo Hhi]].
  destruct (Z_lt_le_dec d (Zdigits2 m)); [lia|].
  assert (2 ^ Zdigits2 m <= 2 ^ d) by (apply pow2_le; lia). lia.
Qed.

Lemma Zdigits2_le (m d : Z) : 0 <= d -> 0 <= m < 2 ^ d -> Zdigits2 m <= d.
Proof.
  intros Hd Hm. destruct (Z.eq_dec m 0) as [->|]; [cbn; lia|].
  destruct (Zdigits2_spec m ltac:(lia)) as [H1 [Hlo Hhi]].
  destruct (Z_le_gt_dec (Zdigits2 m) d); [lia|].
  assert (2 ^ d <= 2 ^ (Zdigits2 m - 1)) by (apply pow2_le; lia). lia.
Qed.

Section Times100.

Variables (mx : positive) (ex : Z).
Hypothesis canonical : Z.max (Zdigits2 (Z.pos mx) + ex - 53) (-1074) = ex.

Let m : Z := Z.pos (mx * hundred_m).
Let e : Z := ex + -46.
Let E : Z := Z.max (Zdigits2 m + e - 53) (-1074).
Let R : spec_float := SFmul prec emax (S754_finite false mx ex) (S754_finite false hundred_m (-46)).

Lemma times100_digits : 53 <= Zdigits2 m /\ e <= E /\ -1074 <= E.
Proof.
  clear canonical.
  assert (2 ^ 52 <= m).
  { unfold m. rewrite Pos2Z.inj_mul. pose proof hundred_m_bounds. nia. }
  pose proof (Zdigits2_ge m 52 ltac:(lia) H). unfold E. lia.
Qed.

Lemma times100_rounded :
  exists m2,
    m / 2 ^ (E - e) <= m2 <= m / 2 ^ (E - e) + 1
    /\ (m2 = m / 2 ^ (E - e) + 1 -> m mod 2 ^ (E - e) <> 0)
    /\ (e < E -> 2 * m2 <= m / 2 ^ (E - e - 1) + 1)
    /\ rounded R false m2 E.
Proof.
  clear canonical.
  destruct times100_digits as [Hd [HeE HE]].
  destruct (binary_round_aux_value false m e loc_Exact ltac:(unfold m; lia) HeE)
    as [m2 [A [B [C D]]]].
  exists m2. fold E in A, B, C, D. repeat split; tauto.
Qed.

(** [1 <= x] gives [100 <= x * 100]. *)
Lemma times100_ge :
  valid_binary R = true -> 2 ^ 1074 <= val mx ex ->
  SFleb (S754_finite false hundred_m (-46)) R = true.
Proof.
  intros Hvalid Hx.
  destruct times100_digits as [Hd [HeE HE]].
  destruct times100_rounded as [m2 [[Hlo Hhi] [_ [_ Hr]]]].
  pose proof hundred_m_bounds as [HM1 HM2].
  destruct (canonical_bounds _ _ canonical) as [Hex _].
  set (n := E - e) in *. assert (Hn : 0 <= n) by (unfold n; lia).
  pose proof (pow2_pos n Hn) as Hpn.
  (* a lower bound of the rounded mantissa, as a value *)
  assert (Hval : Z.pos hundred_m * 2 ^ 1028 <= m2 * 2 ^ (E + 1074)).
  { destruct (Z_le_gt_dec E (-46)) as [Hle|Hgt].
    - set (h := -46 - E). assert (Hh : 0 <= h) by (unfold h; lia).
      assert (Hex0 : 0 <= - ex) by (unfold e in *; lia).
      assert (Hmx : 2 ^ (- ex) <= Z.pos mx).
      { unfold val in Hx.
        replace 1074 with (- ex + (ex + 1074)) in Hx at 1 by lia.
        rewrite (pow2_add (- ex) (ex + 1074)) in Hx by lia.
        pose proof (pow2_pos (ex + 1074) ltac:(lia)). nia. }
      assert (Hq : Z.pos hundred_m * 2 ^ h <= m / 2 ^ n).
      { apply Z.div_le_lower_bound; [lia|].
        replace (2 ^ n * (Z.pos hundred_m * 2 ^ h))
          with (Z.pos hundred_m * (2 ^ n * 2 ^ h)) by ring.
        rewrite <- (pow2_add n h) by lia.
        replace (n + h) with (- ex) by (unfold n, h, e; lia).
        unfold m. rewrite Pos2Z.inj_mul. nia. }
      replace 1028 with (h + (E + 1074)) by (unfold h; lia).
      rewrite (pow2_add h (E + 1074)) by lia.
      pose proof (pow2_pos (E + 1074) ltac:(lia)). nia.
    - assert (En : n = Zdigits2 m - 53) by (unfold n, E in *; lia).
      destruct (Zdigits2_div m n ltac:(unfold m; lia) ltac:(lia)) as [Hpos Hdig].
      assert (Hq : 2 ^ 52 <= m / 2 ^ n).
      { destruct (Zdigits2_spec _ Hpos) as [_ [Hl _]].
        rewrite Hdig in Hl. replace (Zdigits2 m - n - 1) with 52 in Hl by lia.
        exact Hl. }
      replace (E + 1074) with ((E + 45) + 1 + 1028) by lia.
      rewrite (pow2_add (E + 45 + 1) 1028), (pow2_succ (E + 45)) by lia.
      pose proof (pow2_pos (E + 45) ltac:(lia)).
      pose proof (pow2_pos 1028 ltac:(lia)).
      change (2 ^ 53) with (2 * 2 ^ 52) in HM2.
      set (c := 2 ^ 52) in *. set (P := 2 ^ (E + 45)) in *.
      set (Q := 2 ^ 1028) in *.
      assert (Z.pos hundred_m * Q <= 2 * c * Q) by nia.
      assert (2 * c * Q <= m2 * 2 * Q) by nia.
      assert (m2 * 2 * Q * 1 <= m2 * 2 * Q * P) by (apply Z.mul_le_mono_nonneg_l; nia).
      nia. }
  destruct (rounded_cases _ _ _ _ Hr HE)
    as [[Hz _] | [[_ [_ ->]] | [m3 [e3 [HR [Hv _]]]]]].
  - exfalso. rewrite Hz in Hval. pose proof (pow2_pos 1028 ltac:(lia)). lia.
  - reflexivity.
  - rewrite HR in Hvalid |- *.
    destruct (valid_finite _ _ _ Hvalid) as [C3 _].
    unfold SFleb. rewrite SFcompare_pos; [|reflexivity|exact C3].
    rewrite val_hundred, Hv.
    destruct (Z.compare_spec (Z.pos hundred_m * 2 ^ 1028) (m2 * 2 ^ (E + 1074)));
      (reflexivity || lia).
Qed.

(** [x <= 1 - 2^-53] gives [x * 100 < 100]. *)
Lemma times100_lt :
  valid_binary R = true -> val mx ex <= (2 ^ 53 - 1) * 2 ^ 1021 ->
  SFleb (S754_finite false hundred_m (-46)) R = false.
Proof.
  intros Hvalid Hx.
  destruct times100_digits as [Hd [HeE HE]].
  destruct times100_rounded as [m2 [[Hlo Hhi] [Hup [Hhalf Hr]]]].
  pose proof hundred_m_bounds as [HM1 HM2].
  destruct (canonical_bounds _ _ canonical) as [Hex [Hmx53 Hnormal]].
  (* x < 1, so its exponent is at most -53 *)
  assert (Hex53 : ex <= -53).
  { destruct (Z_le_gt_dec ex (-53)); [assumption|exfalso].
    specialize (Hnormal ltac:(lia)). unfold val in Hx.
    replace (ex + 1074) with ((ex + 52) + 1 + 1021) in Hx by lia.
    rewrite (pow2_add (ex + 52 + 1) 1021), (pow2_succ (ex + 52)) in Hx by lia.
    pose proof (pow2_pos (ex + 52) ltac:(lia)).
    pose proof (pow2_pos 1021 ltac:(lia)).
    change (2 ^ 53) with (2 * 2 ^ 52) in Hx.
    set (c := 2 ^ 52) in *. set (P := 2 ^ (ex + 52)) in *. set (Q := 2 ^ 1021) in *.
    assert (c * (2 * 1) * Q <= Z.pos mx * (2 * P) * Q).
    { apply Z.mul_le_mono_nonneg_r; [lia|].
      apply Z.mul_le_mono_nonneg; lia. }
    nia. }
  set (a := -53 - ex). assert (Ha : 0 <= a) by (unfold a; lia).
  pose proof (pow2_pos a Ha) as Hpa.
  assert (Hmx : Z.pos mx <= (2 ^ 53 - 1) * 2 ^ a).
  { unfold val in Hx.
    replace 1021 with (a + (ex + 1074)) in Hx by (unfold a; lia).
    rewrite (pow2_add a (ex + 1074)) in Hx by lia.
    pose proof (pow2_pos (ex + 1074) ltac:(lia)). nia. }
  assert (H53 : 0 < 2 ^ 53) by (apply pow2_pos; lia).
  assert (Hm : m <= (2 ^ 53 - 1) * 2 ^ a * Z.pos hundred_m).
  { unfold m. rewrite Pos2Z.inj_mul. nia. }
  (* the product is below 128, so it is rounded at exponent -46 or below *)
  assert (HE46 : E <= -46).
  { assert (Zdigits2 m <= 106 + a).
    { apply Zdigits2_le; [lia|]. split; [unfold m; lia|].
      replace (106 + a) with (53 + a + 53) by lia.
      rewrite (pow2_add (53 + a) 53), (pow2_add 53 a) by lia.
      set (c := 2 ^ 53) in *. set (A := 2 ^ a) in *.
      assert ((c - 1) * A * Z.pos hundred_m < c * A * c); [|lia].
      assert ((c - 1) * A * Z.pos hundred_m <= (c - 1) * A * c)
        by (apply Z.mul_le_mono_nonneg_l; nia).
      nia. }
    unfold E, e, a in *. lia. }
  set (n := E - e) in *. assert (Hn : 0 <= n) by (unfold n; lia).
  set (h := -46 - E). assert (Hh : 0 <= h) by (unfold h; lia).
  assert (Hnh : n + h = 53 + a) by (unfold n, h, e, a; lia).
  pose proof (pow2_pos h Hh) as Hph. pose proof (pow2_pos n Hn) as Hpn.
  assert (Hpow : 2 ^ n * 2 ^ h = 2 ^ 53 * 2 ^ a).
  { rewrite <- (pow2_add n h), <- (pow2_add 53 a) by lia. now rewrite Hnh. }
  (* the rounded mantissa stays below that of 100 *)
  assert (Hm2 : m2 < Z.pos hundred_m * 2 ^ h).
  { destruct (Z.eq_dec n 0) as [En|En].
    - rewrite En in *. change (2 ^ 0) with 1 in *. rewrite Z.div_1_r in *.
      rewrite Z.mod_1_r in Hup.
      assert (m2 = m) by (destruct (Z.eq_dec m2 (m + 1)) as [Eq|]; [now destruct (Hup Eq)|lia]).
      subst m2.
      set (c := 2 ^ 53) in *. set (A := 2 ^ a) in *. set (H := 2 ^ h) in *.
      nia.
    - assert (Hn1 : 0 <= n - 1) by lia.
      pose proof (pow2_pos (n - 1) Hn1) as Hpn1.
      assert (E2 : 2 ^ n = 2 * 2 ^ (n - 1)).
      { replace n with ((n - 1) + 1) at 1 by lia. now rewrite pow2_succ by lia. }
      specialize (Hhalf ltac:(lia)).
      replace (E - e - 1) with (n - 1) in Hhalf by (unfold n; lia).
      assert (Hn53 : 2 ^ (n - 1) <= 2 ^ 52 * 2 ^ a).
      { rewrite <- (pow2_add 52 a) by lia. apply pow2_le. lia. }
      assert (m / 2 ^ (n - 1) < 2 * (Z.pos hundred_m * 2 ^ h) - 1); [|lia].
      apply Z.div_lt_upper_bound; [lia|].
      change (2 ^ 53) with (2 * 2 ^ 52) in *.
      set (c := 2 ^ 52) in *. set (A := 2 ^ a) in *. set (H := 2 ^ h) in *.
      set (N1 := 2 ^ (n - 1)) in *. set (N := 2 ^ n) in *.
      assert (K1 : N1 * (2 * (Z.pos hundred_m * H) - 1)
                   = Z.pos hundred_m * (N * H) - N1) by (rewrite E2; ring).
      rewrite K1, Hpow.
      assert (K2 : (2 * c - 1) * A * Z.pos hundred_m
                   = Z.pos hundred_m * (2 * c * A) - Z.pos hundred_m * A) by ring.
      assert (c * A < Z.pos hundred_m * A) by nia.
      lia. }
  destruct (rounded_cases _ _ _ _ Hr HE)
    as [[_ ->] | [[_ [Hinf _]] | [m3 [e3 [HR [Hv _]]]]]].
  - reflexivity.
  - lia.
  - rewrite HR in Hvalid |- *.
    destruct (valid_finite _ _ _ Hvalid) as [C3 _].
    unfold SFleb. rewrite SFcompare_pos; [|reflexivity|exact C3].
    rewrite val_hundred, Hv.
    assert (m2 * 2 ^ (E + 1074) < Z.pos hundred_m * 2 ^ 1028).
    { replace 1028 with (h + (E + 1074)) by (unfold h; lia).
      rewrite (pow2_add h (E + 1074)) by lia.
      pose proof (pow2_pos (E + 1074) ltac:(lia)). nia. }
    destruct (Z.compare_spec (Z.pos hundred_m * 2 ^ 1028) (m2 * 2 ^ (E + 1074)));
      (reflexivity || lia).
Qed.

End Times100.

(** division of two positive finite numbers *)


Section Quotient.

Variables (mb mt : positive) (eb et : Z).
Hypothesis canonical_b : Z.max (Zdigits2 (Z.pos mb) + eb - 53) (-1074) = eb.
Hypothesis canonical_t : Z.max (Zdigits2 (Z.pos mt) + et - 53) (-1074) = et.

Let D : Z := Zdigits2 (Z.pos mb) + eb - (Zdigits2 (Z.pos mt) + et).
Let e' : Z := quot_exp mb mt eb et.
Let s : Z := quot_shift mb mt eb et.
Let q : Z := quot mb mt eb et.
Let r : Z := quot_rem mb mt eb et.
Let E : Z := Z.max (Zdigits2 q + e' - 53) (-1074).
Let R : spec_float :=
  SFdiv prec emax (S754_finite false mb eb) (S754_finite false mt et).

Lemma quotient_core :
  0 <= s /\ 0 <= q /\ 0 <= r < Z.pos mt
  /\ Z.pos mb * 2 ^ s = Z.pos mt * q + r
  /\ exists l, (r = 0 -> l = loc_Exact)
               /\ forall sb,
                    SFdiv prec emax (S754_finite sb mb eb) (S754_finite false mt et)
                    = binary_round_aux prec emax sb q e' l.
Proof.
  clear canonical_b canonical_t.
  assert (Hs : 0 <= s) by (unfold s, quot_shift, quot_exp; lia).
  pose proof (pow2_pos s Hs) as Hps.
  assert (Hq : 0 <= q) by (apply Z.div_pos; fold s; lia).
  assert (Hr : 0 <= r < Z.pos mt) by (apply Z.mod_pos_bound; lia).
  repeat split; try lia.
  - unfold q, r, quot, quot_rem. apply Z.div_mod. lia.
  - unfold SFdiv, SFdiv_core_binary. rewrite fexp_64.
    change (Z.min _ _) with e'. change (eb - et - e') with s.
    assert (Em : match s with
                 | 0 => Z.pos mb
                 | Z.pos _ => Z.shiftl (Z.pos mb) s
                 | Z.neg _ => 0
                 end = Z.pos mb * 2 ^ s).
    { destruct s as [|p|p] eqn:Es; [cbn; lia | | lia].
      now rewrite Z.shiftl_mul_pow2 by lia. }
    rewrite Em. unfold q, r, quot, quot_rem, Z.div, Z.modulo. fold s.
    destruct (Z.div_eucl (Z.pos mb * 2 ^ s) (Z.pos mt)) as [q0 r0].
    cbn [fst snd].
    exists (new_location (Z.pos mt) r0). split; [|intros []; reflexivity].
    unfold new_location, new_location_even, new_location_odd.
    destruct (Z.even (Z.pos mt)); destruct (Z.eqb_spec r0 0); congruence.
Qed.

(** The quotient [q] has enough digits for the exponent [e']: rounding it
    only shifts to the right. *)
Lemma quotient_exponent : e' <= E /\ -1074 <= E.
Proof.
  clear canonical_b canonical_t.
  split; [|unfold E; lia].
  destruct (Z_le_gt_dec e' (-1074)) as [|Hgt]; [unfold E; lia|].
  destruct quotient_core as [Hs [Hq _]].
  destruct (Zdigits2_spec (Z.pos mb) ltac:(lia)) as [Hd1 [Hlo1 _]].
  destruct (Zdigits2_spec (Z.pos mt) ltac:(lia)) as [Hd2 [_ Hhi2]].
  set (d1 := Zdigits2 (Z.pos mb)) in *. set (d2 := Zdigits2 (Z.pos mt)) in *.
  assert (He' : e' <= D - 53) by (unfold e', quot_exp, D, d1, d2 in *; lia).
  assert (Hs' : d2 + 52 <= d1 - 1 + s) by (unfold s, quot_shift, D in *; fold e'; lia).
  assert (2 ^ 52 <= q).
  { unfold q, quot. fold s. apply Z.div_le_lower_bound; [lia|].
    assert (2 ^ (d2 + 52) <= 2 ^ (d1 - 1 + s)) by (apply pow2_le; lia).
    rewrite (pow2_add d2 52), (pow2_add (d1 - 1) s) in H by lia.
    pose proof (pow2_pos s Hs). pose proof (pow2_pos 52 ltac:(lia)).
    assert (Z.pos mt * 2 ^ 52 <= 2 ^ d2 * 2 ^ 52) by nia.
    assert (2 ^ (d1 - 1) * 2 ^ s <= Z.pos mb * 2 ^ s) by nia.
    lia. }
  pose proof (Zdigits2_ge q 52 ltac:(lia) H). unfold E. lia.
Qed.

(** Comparing the two numbers is comparing [mb * 2^s] with [mt * 2^-e']. *)
Lemma quotient_scale :
  e' <= 0 ->
  Z.pos mb * 2 ^ s * 2 ^ (et + 1074) = val mb eb * 2 ^ (- e')
  /\ Z.pos mt * 2 ^ (- e') * 2 ^ (et + 1074) = val mt et * 2 ^ (- e').
Proof.
  intros He'. destruct quotient_core as [Hs _].
  destruct (canonical_bounds _ _ canonical_b) as [Heb _].
  destruct (canonical_bounds _ _ canonical_t) as [Het _].
  unfold val. split; [|ring].
  rewrite <- !Z.mul_assoc. f_equal.
  rewrite <- (pow2_add s (et + 1074)), <- (pow2_add (eb + 1074) (- e')) by lia.
  f_equal. unfold s, quot_shift. fold e'. lia.
Qed.

(** [t <= b] gives [1 <= b / t]. *)
Lemma quotient_ge_one :
  val mt et <= val mb eb ->
  R = S754_infinity false
  \/ exists m3 e3, R = S754_finite false m3 e3 /\ 2 ^ 1074 <= val m3 e3.
Proof.
  intros Hle.
  destruct quotient_core as [Hs [Hq [Hr [Hdiv [l [_ HR]]]]]].
  destruct quotient_exponent as [HeE HE].
  destruct (binary_round_aux_value false q e' l Hq HeE) as [m2 [[Hlo _] [_ [_ Hrd]]]].
  fold E in Hlo, Hrd. rewrite <- (HR false) in Hrd. fold R in Hrd.
  set (n := E - e') in *. assert (Hn : 0 <= n) by (unfold n; lia).
  pose proof (pow2_pos n Hn) as Hpn.
  assert (Hval : 2 ^ 1074 <= m2 * 2 ^ (E + 1074)).
  { destruct (Z_le_gt_dec E 0) as [Hle0|Hgt0].
    - assert (He0 : e' <= 0) by lia.
      destruct (quotient_scale He0) as [S1 S2].
      destruct (canonical_bounds _ _ canonical_t) as [Het _].
      pose proof (pow2_pos (et + 1074) ltac:(lia)) as HU.
      pose proof (pow2_pos (- e') ltac:(lia)) as HP.
      assert (Hcmp : Z.pos mt * 2 ^ (- e') <= Z.pos mb * 2 ^ s).
      { assert (Z.pos mt * 2 ^ (- e') * 2 ^ (et + 1074)
                <= Z.pos mb * 2 ^ s * 2 ^ (et + 1074)) by (rewrite S1, S2; nia).
        nia. }
      assert (Hq' : 2 ^ (- e') <= q)
        by (unfold q, quot; fold s; apply Z.div_le_lower_bound; lia).
      assert (Hq2 : 2 ^ (- E) <= q / 2 ^ n).
      { apply Z.div_le_lower_bound; [lia|].
        rewrite <- (pow2_add n (- E)) by lia.
        replace (n + - E) with (- e') by (unfold n; lia). exact Hq'. }
      replace 1074 with (- E + (E + 1074)) at 1 by lia.
      rewrite (pow2_add (- E) (E + 1074)) by lia.
      pose proof (pow2_pos (E + 1074) ltac:(lia)). nia.
    - assert (En : n = Zdigits2 q - 53) by (unfold n, E in *; lia).
      assert (Hq0 : 0 < q) by (destruct q; cbn in En; lia).
      destruct (Zdigits2_div q n Hq0 ltac:(lia)) as [Hpos _].
      assert (2 ^ 1074 <= 2 ^ (E + 1074)) by (apply pow2_le; lia).
      pose proof (pow2_pos 1074 ltac:(lia)). nia. }
  destruct (rounded_cases _ _ _ _ Hrd HE)
    as [[Hz _] | [[_ [_ ->]] | [m3 [e3 [HR3 [Hv _]]]]]].
  - exfalso. rewrite Hz in Hval. pose proof (pow2_pos 1074 ltac:(lia)). lia.
  - now left.
  - right. exists m3, e3. split; [assumption | now rewrite Hv].
Qed.

(** Two canonical numbers [b < t] are at least one part in [2^53] apart. *)
Lemma quotient_gap :
  val mb eb < val mt et -> 2 ^ 53 * val mb eb <= (2 ^ 53 - 1) * val mt et.
Proof.
  intros Hlt. unfold val in *.
  destruct (canonical_bounds _ _ canonical_b) as [Heb [Hb53 _]].
  destruct (canonical_bounds _ _ canonical_t) as [Het [Ht53 Hnorm]].
  assert (H53 : 0 < 2 ^ 53) by (apply pow2_pos; lia).
  destruct (Z_le_gt_dec et eb) as [Hle|Hgt].
  - replace (eb + 1074) with ((eb - et) + (et + 1074)) in * by lia.
    rewrite (pow2_add (eb - et) (et + 1074)) in * by lia.
    pose proof (pow2_pos (et + 1074) ltac:(lia)).
    pose proof (pow2_pos (eb - et) ltac:(lia)).
    set (c := 2 ^ 53) in *. set (U := 2 ^ (et + 1074)) in *.
    set (P := 2 ^ (eb - et)) in *.
    assert (Z.pos mb * P < Z.pos mt) by nia.
    assert (c * (Z.pos mb * P) <= (c - 1) * Z.pos mt) by nia.
    nia.
  - specialize (Hnorm ltac:(lia)).
    replace (et + 1074) with ((et - eb - 1) + 1 + (eb + 1074)) in * by lia.
    rewrite (pow2_add (et - eb - 1 + 1) (eb + 1074)),
            (pow2_succ (et - eb - 1)) in * by lia.
    pose proof (pow2_pos (eb + 1074) ltac:(lia)).
    pose proof (pow2_pos (et - eb - 1) ltac:(lia)).
    change (2 ^ 53) with (2 * 2 ^ 52) in *.
    set (c := 2 ^ 52) in *. set (U := 2 ^ (eb + 1074)) in *.
    set (P := 2 ^ (et - eb - 1)) in *.
    assert (2 * c * Z.pos mb <= (2 * c - 1) * (2 * c)) by nia.
    assert ((2 * c - 1) * (2 * c) * 1 <= (2 * c - 1) * (Z.pos mt * 2) * P).
    { apply Z.mul_le_mono_nonneg; nia. }
    nia.
Qed.

(** [b < t] gives [b / t <= 1 - 2^-53]. *)
Lemma quotient_lt_one :
  val mb eb < val mt et ->
  R = S754_zero false
  \/ exists m3 e3, R = S754_finite false m3 e3
                   /\ val m3 e3 <= (2 ^ 53 - 1) * 2 ^ 1021.
Proof.
  intros Hlt.
  destruct quotient_core as [Hs [Hq [Hr [Hdiv [l [Hl HR]]]]]].
  destruct quotient_exponent as [HeE HE].
  destruct (binary_round_aux_value false q e' l Hq HeE) as [m2 [[_ Hhi] [Hup [_ Hrd]]]].
  fold E in Hhi, Hup, Hrd. rewrite <- (HR false) in Hrd. fold R in Hrd.
  destruct (canonical_bounds _ _ canonical_b) as [Heb _].
  destruct (canonical_bounds _ _ canonical_t) as [Het _].
  pose proof (pow2_pos (et + 1074) ltac:(lia)) as HU.
  pose proof (pow2_pos s Hs) as Hps.
  (* the quotient is below 1: its exponent is at most -53 *)
  assert (HD : D <= 0).
  { destruct (Zdigits2_spec (Z.pos mb) ltac:(lia)) as [Hd1 [Hlo1 _]].
    destruct (Zdigits2_spec (Z.pos mt) ltac:(lia)) as [Hd2 [_ Hhi2]].
    destruct (Z_le_gt_dec D 0); [assumption|exfalso].
    unfold D in *.
    set (d1 := Zdigits2 (Z.pos mb)) in *. set (d2 := Zdigits2 (Z.pos mt)) in *.
    assert (2 ^ (d2 + (et + 1074)) <= 2 ^ (d1 - 1 + (eb + 1074)))
      by (apply pow2_le; lia).
    rewrite (pow2_add d2 (et + 1074)), (pow2_add (d1 - 1) (eb + 1074)) in H by lia.
    pose proof (pow2_pos (eb + 1074) ltac:(lia)).
    unfold val in Hlt.
    assert (Z.pos mt * 2 ^ (et + 1074) <= 2 ^ d2 * 2 ^ (et + 1074)) by nia.
    assert (2 ^ (d1 - 1) * 2 ^ (eb + 1074) <= Z.pos mb * 2 ^ (eb + 1074)) by nia.
    lia. }
  assert (He53 : e' <= -53) by (unfold e', quot_exp; fold D; lia).
  destruct (quotient_scale ltac:(lia)) as [S1 S2].
  pose proof (pow2_pos (- e') ltac:(lia)) as HP.
  assert (Hcmp : Z.pos mb * 2 ^ s < Z.pos mt * 2 ^ (- e')).
  { assert (Z.pos mb * 2 ^ s * 2 ^ (et + 1074)
            < Z.pos mt * 2 ^ (- e') * 2 ^ (et + 1074)) by (rewrite S1, S2; nia).
    nia. }
  assert (Hq1 : q < 2 ^ (- e'))
    by (unfold q, quot; fold s; apply Z.div_lt_upper_bound; lia).
  assert (HE53 : E <= -53).
  { pose proof (Zdigits2_le q (- e') ltac:(lia) ltac:(lia)). unfold E. lia. }
  set (n := E - e') in *. assert (Hn : 0 <= n) by (unfold n; lia).
  set (g := -53 - E). assert (Hg : 0 <= g) by (unfold g; lia).
  pose proof (pow2_pos n Hn) as Hpn. pose proof (pow2_pos g Hg) as Hpg.
  assert (H53 : 0 < 2 ^ 53) by (apply pow2_pos; lia).
  assert (Epow : 2 ^ (- e') = 2 ^ 53 * (2 ^ g * 2 ^ n)).
  { rewrite <- (pow2_add g n), <- (pow2_add 53 (g + n)) by lia.
    f_equal. unfold g, n. lia. }
  (* b / t <= 1 - 2^-53, on the grid of the rounded result *)
  assert (Hgap : Z.pos mb * 2 ^ s <= (2 ^ 53 - 1) * 2 ^ g * (Z.pos mt * 2 ^ n)).
  { pose proof (quotient_gap Hlt) as Hk.
    assert (2 ^ 53 * (Z.pos mb * 2 ^ s * 2 ^ (et + 1074))
            <= (2 ^ 53 - 1) * (Z.pos mt * 2 ^ (- e') * 2 ^ (et + 1074))).
    { rewrite S1, S2. nia. }
    rewrite Epow in H.
    set (c := 2 ^ 53) in *. set (U := 2 ^ (et + 1074)) in *.
    set (G := 2 ^ g) in *. set (N := 2 ^ n) in *. set (B := Z.pos mb * 2 ^ s) in *.
    assert (c * U * B <= c * U * ((c - 1) * G * (Z.pos mt * N))) by nia.
    assert (0 < c * U) by nia.
    apply (Z.mul_le_mono_pos_l _ _ (c * U)); assumption. }
  assert (Hqn : q / 2 ^ n = (Z.pos mb * 2 ^ s) / (Z.pos mt * 2 ^ n)).
  { unfold q, quot. fold s. rewrite Z.div_div; lia. }
  assert (Hfloor : q / 2 ^ n <= (2 ^ 53 - 1) * 2 ^ g).
  { rewrite Hqn. apply Z.div_le_upper_bound; [nia|].
    rewrite (Z.mul_comm (Z.pos mt * 2 ^ n)). exact Hgap. }
  assert (Hm2 : m2 <= (2 ^ 53 - 1) * 2 ^ g).
  { destruct (Z.eq_dec m2 (q / 2 ^ n + 1)) as [Eup|]; [|lia].
    destruct (Z.eq_dec (q / 2 ^ n) ((2 ^ 53 - 1) * 2 ^ g)) as [Eq|]; [|lia].
    exfalso. apply (Hup Eup).
    assert (Hmul : (Z.pos mt * 2 ^ n) * (q / 2 ^ n) <= Z.pos mb * 2 ^ s).
    { rewrite Hqn. apply Z.mul_div_le. nia. }
    assert (Eall : Z.pos mb * 2 ^ s = Z.pos mt * ((2 ^ 53 - 1) * 2 ^ g * 2 ^ n)).
    { rewrite Eq in Hmul. nia. }
    assert (Eq' : q = (2 ^ 53 - 1) * 2 ^ g * 2 ^ n).
    { unfold q, quot. fold s. rewrite Eall, Z.mul_comm. apply Z.div_mul. lia. }
    split.
    - apply Hl. unfold r, quot_rem. fold s.
      rewrite Eall, Z.mul_comm. apply Z.mod_mul. lia.
    - rewrite Eq'. apply Z.mod_mul. lia. }
  destruct (rounded_cases _ _ _ _ Hrd HE)
    as [[_ ->] | [[_ [Hinf _]] | [m3 [e3 [HR3 [Hv _]]]]]].
  - now left.
  - lia.
  - right. exists m3, e3. split; [assumption|]. rewrite Hv.
    replace 1021 with (g + (E + 1074)) by (unfold g; lia).
    rewrite (pow2_add g (E + 1074)) by lia.
    pose proof (pow2_pos (E + 1074) ltac:(lia)). nia.
Qed.

End Quotient.

Lemma rounded_shape (R : spec_float) (s : bool) (m2 E : Z) :
  rounded R s m2 E ->
  R = S754_zero s \/ R = S754_infinity s \/ exists m e, R = S754_finite s m e.
Proof.
  intros [[_ ->] | [m3 [e3 [_ [_ [[_ ->] | [_ ->]]]]]]]; eauto.
Qed.

Lemma SFdiv_finite_shape (sb : bool) (mb mt : positive) (eb et : Z) :
  let R := SFdiv prec emax (S754_finite sb mb eb) (S754_finite false mt et) in
  R = S754_zero sb \/ R = S754_infinity sb \/ exists m e, R = S754_finite sb m e.
Proof.
  intros R. unfold R.
  destruct (quotient_core mb mt eb et) as [_ [Hq [_ [_ [l [_ HR]]]]]].
  destruct (quotient_exponent mb mt eb et) as [HeE _].
  rewrite HR.
  destruct (binary_round_aux_value sb _ _ l Hq HeE) as [m2 [_ [_ [_ Hrd]]]].
  exact (rounded_shape _ _ _ _ Hrd).
Qed.

Lemma SFmul_100_shape (sx : bool) (mx : positive) (ex : Z) :
  let R := SFmul prec emax (S754_finite sx mx ex) (S754_finite false hundred_m (-46)) in
  R = S754_zero sx \/ R = S754_infinity sx \/ exists m e, R = S754_finite sx m e.
Proof.
  intros R. unfold R. cbn [SFmul].
  destruct (times100_digits mx ex) as [_ [HeE _]].
  destruct (binary_round_aux_value (xorb sx false) (Z.pos (mx * hundred_m))
              (ex + -46) loc_Exact (Pos2Z.is_nonneg _) HeE) as [m2 [_ [_ [_ Hrd]]]].
  destruct sx; exact (rounded_shape _ _ _ _ Hrd).
Qed.


(** ** From the specification to the primitive numbers *)


Lemma SFcompare_refl (X : spec_float) :
  X <> S754_nan -> SFcompare X X = Some Eq.
Proof.
  destruct X as [s|s| |s m e]; intros H; try congruence; cbn.
  - reflexivity.
  - now destruct s.
  - rewrite Z.compare_refl, Pos.compare_cont_refl. now destruct s.
Qed.

Lemma is_nan_spec (x : float) : is_nan x = true <-> Prim2SF x = S754_nan.
Proof.
  unfold is_nan. rewrite eqb_spec. unfold SFeqb. split.
  - intros H. destruct (Prim2SF x) as [s|s| |s m e] eqn:E; try reflexivity;
      rewrite SFcompare_refl in H by discriminate; discriminate.
  - now intros ->.
Qed.

Lemma positive_finite (t : float) :
  is_finite t = true -> (0 <? t)%float = true ->
  exists mt et, Prim2SF t = S754_finite false mt et.
Proof.
  unfold is_finite, is_infinity. rewrite ltb_spec, eqb_spec, abs_spec.
  change (Prim2SF 0) with (S754_zero false).
  change (Prim2SF infinity) with (S754_infinity false).
  destruct (Prim2SF t) as [s|s| |s m e]; cbn.
  - discriminate.
  - destruct s; cbn; rewrite ?orb_true_r; discriminate.
  - discriminate.
  - destruct s; [discriminate|]. intros _ _. now exists m, e.
Qed.

Lemma SFleb_finite_pos (m1 m2 : positive) (e1 e2 : Z) :
  valid_binary (S754_finite false m1 e1) = true ->
  valid_binary (S754_finite false m2 e2) = true ->
  SFleb (S754_finite false m1 e1) (S754_finite false m2 e2)
  = (val m1 e1 <=? val m2 e2).
Proof.
  intros V1 V2.
  destruct (valid_finite _ _ _ V1) as [C1 _].
  destruct (valid_finite _ _ _ V2) as [C2 _].
  unfold SFleb. rewrite (SFcompare_pos _ _ _ _ C1 C2).
  unfold Z.leb. now destruct (val m1 e1 ?= val m2 e2).
Qed.

(** The comparison [100 <= b / t * 100] is the comparison [t <= b], for
    every [b] and every finite positive [t]. *)
Theorem SF_scaled_ratio_ge_100 (B : spec_float) (mt : positive) (et : Z) :
  let T := S754_finite false mt et in
  valid_binary B = true -> valid_binary T = true ->
  valid_binary (SFdiv prec emax B T) = true ->
  valid_binary (SFmul prec emax (SFdiv prec emax B T) C100) = true ->
  SFleb C100 (SFmul prec emax (SFdiv prec emax B T) C100) = SFleb T B.
Proof.
  intros T VB VT VQ VP. unfold T in *.
  destruct B as [s|s| |s mb eb].
  - now destruct s.
  - now destruct s.
  - reflexivity.
  - destruct s.
    + (* a negative balance *)
      destruct (SFdiv_finite_shape true mb mt eb et) as [-> | [-> | [m [e ->]]]];
        try reflexivity.
      destruct (SFmul_100_shape true m e) as [H | [H | [m' [e' H]]]];
        unfold C100; rewrite H; reflexivity.
    + destruct (valid_finite _ _ _ VB) as [CB _].
      destruct (valid_finite _ _ _ VT) as [CT _].
      rewrite (SFleb_finite_pos _ _ _ _ VT VB).
      destruct (Z.leb_spec (val mt et) (val mb eb)) as [Hle|Hlt].
      * destruct (quotient_ge_one mb mt eb et CB CT Hle) as [HR | [m3 [e3 [HR Hv]]]];
          rewrite HR in *; [reflexivity|].
        destruct (valid_finite _ _ _ VQ) as [CQ _].
        now apply times100_ge.
      * destruct (quotient_lt_one mb mt eb et CB CT Hlt) as [HR | [m3 [e3 [HR Hv]]]];
          rewrite HR in *; [reflexivity|].
        destruct (valid_finite _ _ _ VQ) as [CQ _].
        now apply times100_lt.
Qed.

End Binary64.

(** ** Progress of a goal *)

Lemma SFcompare_antisym (X Y : spec_float) (c : comparison) :
  SFcompare X Y = Some c -> SFcompare Y X = Some (CompOpp c).
Proof.
  destruct X as [s|s| |s m e], Y as [s'|s'| |s' m' e']; cbn;
    try discriminate; intros H; injection H as <-;
    try (destruct s; reflexivity); try (destruct s'; reflexivity);
    try (destruct s, s'; reflexivity); try reflexivity.
  destruct s, s'; try reflexivity;
    rewrite (Z.compare_antisym e e');
    destruct (e ?= e')%Z; cbn; try reflexivity;
    rewrite (ZC4 m m'); now rewrite ?CompOpp_involutive.
Qed.

(** On numbers, [x < y] being false gives [y <= x]. *)
Lemma not_lt_ge (x y : JS.number) :
  is_nan x = false -> is_nan y = false ->
  JS.lt x y = false -> JS.ge x y = true.
Proof.
  unfold JS.lt, JS.ge. rewrite ltb_spec, leb_spec. unfold SFltb, SFleb.
  intros Hx Hy.
  destruct (SFcompare (Prim2SF x) (Prim2SF y)) as [c|] eqn:E.
  - rewrite (SFcompare_antisym _ _ _ E). now destruct c.
  - exfalso.
    assert (Prim2SF x <> S754_nan) by (intros N; apply is_nan_spec in N; congruence).
    assert (Prim2SF y <> S754_nan) by (intros N; apply is_nan_spec in N; congruence).
    destruct (Prim2SF x) as [s|s| |s m e], (Prim2SF y) as [s'|s'| |s' m' e'];
      cbn in E; congruence.
Qed.

Lemma lt_le (x y : JS.number) : (x <? y)%float = true -> (x <=? y)%float = true.
Proof.
  rewrite ltb_spec, leb_spec. unfold SFltb, SFleb.
  now destruct (SFcompare (Prim2SF x) (Prim2SF y)) as [[]|].
Qed.

Lemma nan_not_le (x y : JS.number) : is_nan y = true -> (x <=? y)%float = false.
Proof.
  intros H. apply is_nan_spec in H. rewrite leb_spec, H. unfold SFleb.
  now destruct (Prim2SF x).
Qed.

(** [Math.min(v, 100)] is NaN, 100 or [v]. *)
Lemma Math_min_100 (v : JS.number) :
  JS.Math_min v 100
  = if is_nan v then nan else if (100 <? v)%float then 100%float else v.
Proof. unfold JS.Math_min. change (is_nan 100) with false. reflexivity. Qed.

(** The percentage [balance / target_amount * 100] is a number when the
    balance is one and the target is finite and positive. *)
Lemma scaled_ratio_is_number (b t : JS.number) :
  is_finite t = true -> (0 <? t)%float = true -> is_nan b = false ->
  is_nan (b / t * 100)%float = false.
Proof.
  intros Hfin Hpos Hb.
  destruct (positive_finite t Hfin Hpos) as [mt [et Ht]].
  destruct (is_nan (b / t * 100)%float) eqn:N; [exfalso|reflexivity].
  apply is_nan_spec in N. rewrite mul_spec, div_spec, Ht in N.
  change (Prim2SF 100) with C100 in N. unfold SF64mul, SF64div in N.
  assert (HB : Prim2SF b <> S754_nan)
    by (intros E; apply is_nan_spec in E; congruence).
  destruct (Prim2SF b) as [s|s| |s mb eb]; try congruence; try discriminate.
  destruct (SFdiv_finite_shape s mb mt eb et) as [H | [H | [m [e H]]]];
    rewrite H in N; try discriminate.
  destruct (SFmul_100_shape s m e) as [H' | [H' | [m' [e' H']]]];
    unfold C100 in N; rewrite H' in N; discriminate.
Qed.

(** C2. The number in the width of the bar, [progress < 0 ? 0 : progress]
    with [progress = Math.min(balance / target_amount * 100, 100)], is never
    below 0 and never above 100, whatever the balance and the goal; when the
    target is finite and positive and the balance is a number (not NaN), it
    is a number of the inclusive range from 0 to 100. *)
Theorem barWidth_range (b : JS.number) (goal : SavingGoal.t) :
  let w := barWidth (progress b goal) in
  (JS.lt w 0 = false /\ JS.lt 100 w = false)
  /\ (is_finite (SavingGoal.target_amount goal) = true ->
      JS.lt 0 (SavingGoal.target_amount goal) = true ->
      is_nan b = false ->
      is_nan w = false /\ JS.ge w 0 = true /\ JS.ge 100 w = true).
Proof.
  cbv zeta. unfold barWidth, progress.
  set (v := (b / SavingGoal.target_amount goal * 100)%float).
  rewrite Math_min_100. split.
  - destruct (is_nan v) eqn:Nv; [split; reflexivity|].
    destruct (100 <? v)%float eqn:Hv; [split; reflexivity|].
    destruct (JS.lt v 0) eqn:H0; [split; reflexivity|].
    split; [exact H0 | exact Hv].
  - intros Hfin Hpos Hb.
    pose proof (scaled_ratio_is_number b _ Hfin Hpos Hb) as Nv. fold v in Nv.
    rewrite Nv.
    destruct (100 <? v)%float eqn:Hv; [repeat split; reflexivity|].
    destruct (JS.lt v 0) eqn:H0; [repeat split; reflexivity|].
    split; [exact Nv|]. split.
    + now apply not_lt_ge.
    + now apply not_lt_ge.
Qed.

(** Targets 1000 and 100: the balances 950, 1200 and -50 give the widths 95,
    100 and 0. *)
Lemma barWidth_range_witness :
  let bike := SavingGoal.mk "g1" "Bike" 1000 None in
  let book := SavingGoal.mk "g2" "Book" 100 None in
  barWidth (progress 950 bike) = 95%float
  /\ barWidth (progress 1200 bike) = 100%float
  /\ progress (-50) book = (-50)%float
  /\ barWidth (progress (-50) book) = 0%float
  /\ JS.ge (barWidth (progress (-50) book)) 0 = true
  /\ JS.ge 100 (barWidth (progress (-50) book)) = true.
Proof.
  intros bike book.
  pose proof (barWidth_range (-50) book) as [_ H].
  destruct (H eq_refl eq_refl eq_refl) as [_ [A B]].
  split; [reflexivity|]. split; [reflexivity|]. split; [reflexivity|].
  split; [reflexivity|]. split; [exact A | exact B].
Defined.

(** The test [progress >= 100] is the test on the unclamped percentage. *)
Lemma isAchieved_unclamped (v : JS.number) :
  isAchieved (JS.Math_min v 100) = JS.ge v 100.
Proof.
  unfold isAchieved, JS.ge. rewrite Math_min_100.
  destruct (is_nan v) eqn:Nv.
  - now rewrite (nan_not_le 100 v Nv).
  - destruct (100 <? v)%float eqn:Hv; [|reflexivity].
    now rewrite (lt_le _ _ Hv).
Qed.

(** C6. For a goal whose target is finite and positive, and every balance,
    the goal is marked achieved exactly when [balance >= target_amount]; the
    mark, taken on the clamped progress, is the test that the unclamped
    percentage reaches 100. *)
Theorem isAchieved_iff (b : JS.number) (goal : SavingGoal.t)
    (finite_target : is_finite (SavingGoal.target_amount goal) = true)
    (positive_target : JS.lt 0 (SavingGoal.target_amount goal) = true) :
  isAchieved (progress b goal) = JS.ge b (SavingGoal.target_amount goal)
  /\ isAchieved (progress b goal)
     = JS.ge (b / SavingGoal.target_amount goal * 100)%float 100.
Proof.
  unfold progress. rewrite isAchieved_unclamped. split; [|reflexivity].
  set (t := SavingGoal.target_amount goal) in *.
  destruct (positive_finite t finite_target positive_target) as [mt [et Ht]].
  unfold JS.ge. rewrite !leb_spec, mul_spec, div_spec, Ht.
  change (Prim2SF 100) with C100.
  apply SF_scaled_ratio_ge_100.
  - apply Prim2SF_valid.
  - rewrite <- Ht. apply Prim2SF_valid.
  - rewrite <- Ht. fold (SF64div (Prim2SF b) (Prim2SF t)).
    rewrite <- div_spec. apply Prim2SF_valid.
  - rewrite <- Ht. fold (SF64div (Prim2SF b) (Prim2SF t)).
    rewrite <- div_spec. change C100 with (Prim2SF 100).
    fold (SF64mul (Prim2SF (b / t)) (Prim2SF 100)).
    rewrite <- mul_spec. apply Prim2SF_valid.
Qed.

(** The scenario of the specification: with the target 1000, the balance 950
    gives progress 95 and no mark, 1000 gives 100 and the mark, 1200 gives
    the clamped 100 and the mark. *)
Lemma isAchieved_iff_witness :
  let bike := SavingGoal.mk "g1" "Bike" 1000 None in
  is_finite (SavingGoal.target_amount bike) = true
  /\ JS.lt 0 (SavingGoal.target_amount bike) = true
  /\ (progress 950 bike = 95%float
      /\ isAchieved (progress 950 bike) = JS.ge 950 1000
      /\ JS.ge 950 1000 = false)
  /\ (progress 1000 bike = 100%float
      /\ isAchieved (progress 1000 bike) = JS.ge 1000 1000
      /\ JS.ge 1000 1000 = true)
  /\ (progress 1200 bike = 100%float
      /\ isAchieved (progress 1200 bike) = JS.ge 1200 1000
      /\ JS.ge 1200 1000 = true).
Proof.
  intros bike.
  pose proof (isAchieved_iff 950 bike eq_refl eq_refl) as [A _].
  pose proof (isAchieved_iff 1000 bike eq_refl eq_refl) as [B _].
  pose proof (isAchieved_iff 1200 bike eq_refl eq_refl) as [C _].
  split; [reflexivity|]. split; [reflexivity|].
  split; [split; [reflexivity|]; split; [exact A | reflexivity]|].
  split; [split; [reflexivity|]; split; [exact B | reflexivity]|].
  split; [reflexivity|]; split; [exact C | reflexivity].
Defined.

(** * Further properties of the record store *)

Section StoreMore.

Context {host : Host}.

(** X1. [fetchData] replaces both lists or neither, and always ends the loading
    state.  When either of the two reads fails, the two lists are those of
    the render and the failure is logged once; when both succeed, each list
    is the reply ([[]] for a [null] reply) and nothing is logged.  The form
    fields and the search term are never touched. *)
Theorem fetchData_all_or_nothing (db : Remote.t) (r : State.t) :
  let s' := Run.next (fetchData db) r in
  State.isLoading s' = false
  /\ (State.description s' = State.description r
      /\ State.amount s' = State.amount r
      /\ State.category s' = State.category r
      /\ State.type s' = State.type r
      /\ State.goalName s' = State.goalName r
      /\ State.goalTarget s' = State.goalTarget r
      /\ State.searchTerm s' = State.searchTerm r)
  /\ (failed (Remote.select_transactions db) \/ failed (Remote.select_goals db) ->
      State.transactions s' = State.transactions r
      /\ State.goals s' = State.goals r
      /\ exists e, Run.effects (fetchData db) r
                   = [console_error "Error fetching data:" e])
  /\ (forall tr gr,
        Remote.select_transactions db = JS.Fulfilled tr ->
        Remote.select_goals db = JS.Fulfilled gr ->
        Response.error tr = None -> Response.error gr = None ->
        State.transactions s' = or_empty (Response.data tr)
        /\ State.goals s' = or_empty (Response.data gr)
        /\ Run.effects (fetchData db) r = []).
Proof.
  cbv zeta. run_handler.
  destruct (Remote.select_transactions db) as [[d1 [e1|]]|e1];
    destruct (Remote.select_goals db) as [[d2 [e2|]]|e2]; cbn;
    repeat apply conj; try reflexivity;
    try (intros tr gr E1 E2 N1 N2; try discriminate;
         injection E1 as <-; injection E2 as <-; cbn in *; try discriminate;
         now repeat split);
    try (intros F; repeat apply conj; try reflexivity;
         solve [eexists; reflexivity | destruct F; contradiction]).
Qed.

(** X3. The user is alerted exactly when a submitted goal could not be stored:
    [addGoal] shows the alert [Failed to add goal.] (after logging) when the
    form is accepted and the insert fails, and in no other case; the other
    handlers never alert, they only log. *)
Theorem alert_only_for_failed_goal (db : Remote.t) (now id : string) (r : State.t) :
  (existsb is_alert (Run.effects (addGoal db) r) = true
   <-> (State.goalName r <> ""%string /\ State.goalTarget r <> ""%string
        /\ failed (Remote.insert_goal db (newGoal r))))
  /\ (State.goalName r <> ""%string -> State.goalTarget r <> ""%string ->
      failed (Remote.insert_goal db (newGoal r)) ->
      exists e, Run.effects (addGoal db) r
                = [console_error "Error adding goal:" e; alert "Failed to add goal."])
  /\ existsb is_alert (Run.effects (fetchData db) r) = false
  /\ existsb is_alert (Run.effects (addTransaction db now) r) = false
  /\ existsb is_alert (Run.effects (deleteTransaction db id) r) = false
  /\ existsb is_alert (Run.effects (deleteGoal db id) r) = false
  /\ (failed (Remote.delete_transaction db id) ->
      exists e, Run.effects (deleteTransaction db id) r
                = [console_error "Error deleting transaction:" e])
  /\ (State.description r <> ""%string -> State.amount r <> ""%string ->
      failed (Remote.insert_transaction db (newTransaction now r)) ->
      exists e, Run.effects (addTransaction db now) r
                = [console_error "Error adding transaction:" e]).
Proof.
  repeat apply conj.
  - run_handler. intros H.
    destruct (State.goalName r) as [|c n]; [discriminate|].
    destruct (State.goalTarget r) as [|c' t]; [discriminate|]. cbn in *.
    destruct (Remote.insert_goal db _) as [[[[d0 ds]|] [e|]]|e]; cbn in *;
      try discriminate; repeat split; discriminate.
  - intros [Hn [Ht F]]. run_handler.
    destruct (State.goalName r) as [|c n]; [contradiction|].
    destruct (State.goalTarget r) as [|c' t]; [contradiction|]. cbn in *.
    destruct (Remote.insert_goal db _) as [[[[d0 ds]|] [e|]]|e]; cbn in *;
      try contradiction; reflexivity.
  - intros Hn Ht. run_handler.
    destruct (State.goalName r) as [|c n]; [contradiction|].
    destruct (State.goalTarget r) as [|c' t]; [contradiction|]. cbn.
    destruct (Remote.insert_goal db _) as [[[[d0 ds]|] [e|]]|e]; cbn;
      intros F; try contradiction; eexists; reflexivity.
  - run_handler.
    destruct (Promise_all _ _) as [[[d1 [e1|]] [d2 [e2|]]]|e]; reflexivity.
  - run_handler. destruct (negb _ || negb _); [reflexivity|].
    destruct (Remote.insert_transaction db _) as [[[[d0 ds]|] [e|]]|e]; reflexivity.
  - run_handler.
    destruct (Remote.delete_transaction db id) as [[d [e|]]|e]; reflexivity.
  - run_handler.
    destruct (Remote.delete_goal db id) as [[d [e|]]|e]; reflexivity.
  - run_handler.
    destruct (Remote.delete_transaction db id) as [[d [e|]]|e]; cbn;
      intros F; try contradiction; eexists; reflexivity.
  - intros Hd Ha. run_handler.
    destruct (State.description r) as [|c n]; [contradiction|].
    destruct (State.amount r) as [|c' t]; [contradiction|]. cbn.
    destruct (Remote.insert_transaction db _) as [[[[d0 ds]|] [e|]]|e]; cbn;
      intros F; try contradiction; eexists; reflexivity.
Qed.

End StoreMore.

(** Removing the elements that carry [id] from a list without repeated
    identifiers removes at most one. *)
Lemma filter_unique_id {A : Type} (key : A -> string) (id : string) (l : list A) :
  NoDup (map key l) ->
  (exists x, In x l /\ key x = id) ->
  S (List.length (filter (fun x => negb (String.eqb (key x) id)) l)) = List.length l.
Proof.
  induction l as [|a l IH]; intros Hnd [x [Hin Hx]]; [contradiction|].
  cbn [map] in Hnd. apply NoDup_cons_iff in Hnd as [Hnotin Hnd'].
  cbn [filter List.length].
  destruct (String.eqb_spec (key a) id) as [Ea|Ea]; cbn [negb].
  - f_equal. f_equal. apply filter_all. intros y Hy.
    apply negb_true_iff, String.eqb_neq. intros Ey.
    apply Hnotin. rewrite Ea, <- Ey. now apply in_map.
  - cbn [List.length]. f_equal. apply IH; [assumption|].
    destruct Hin as [<- | Hin]; [contradiction|]. now exists x.
Qed.

(** X4. A successful [deleteTransaction] removes every transaction that carries
    the identifier and nothing else: the new list is a sub-sequence of the
    old one, a transaction is in it exactly when it was in the old one under
    another identifier, and the goals are those of the render.  When no two
    transactions share an identifier and one carries the deleted one, the
    list is shorter by exactly one. *)
Theorem deleteTransaction_removes (db : Remote.t) (id : string) (r : State.t)
    (accepted : ~ failed (Remote.delete_transaction db id)) :
  let s' := Run.next (deleteTransaction db id) r in
  Subseq (State.transactions s') (State.transactions r)
  /\ (forall t, In t (State.transactions s')
                <-> In t (State.transactions r) /\ Transaction.id t <> id)
  /\ State.goals s' = State.goals r
  /\ Run.effects (deleteTransaction db id) r = []
  /\ (NoDup (map Transaction.id (State.transactions r)) ->
      (exists t, In t (State.transactions r) /\ Transaction.id t = id) ->
      S (List.length (State.transactions s')) = List.length (State.transactions r)).
Proof.
  cbv zeta. revert accepted. run_handler.
  destruct (Remote.delete_transaction db id) as [[d [e|]]|e]; cbn;
    intros accepted; try (exfalso; apply accepted; exact I).
  repeat apply conj; try reflexivity.
  - apply Subseq_filter.
  - intros t. rewrite filter_In, negb_true_iff, String.eqb_neq. reflexivity.
  - apply filter_unique_id.
Qed.

(** X5. A successful [deleteGoal] removes every goal that carries the
    identifier and nothing else: the new list is a sub-sequence of the old
    one, a goal is in it exactly when it was in the old one under another
    identifier, and the transactions are those of the render.  When no two
    goals share an identifier and one carries the deleted one, the list is
    shorter by exactly one. *)
Theorem deleteGoal_removes (db : Remote.t) (id : string) (r : State.t)
    (accepted : ~ failed (Remote.delete_goal db id)) :
  let s' := Run.next (deleteGoal db id) r in
  Subseq (State.goals s') (State.goals r)
  /\ (forall g, In g (State.goals s')
                <-> In g (State.goals r) /\ SavingGoal.id g <> id)
  /\ State.transactions s' = State.transactions r
  /\ Run.effects (deleteGoal db id) r = []
  /\ (NoDup (map SavingGoal.id (State.goals r)) ->
      (exists g, In g (State.goals r) /\ SavingGoal.id g = id) ->
      S (List.length (State.goals s')) = List.length (State.goals r)).
Proof.
  cbv zeta. revert accepted. run_handler.
  destruct (Remote.delete_goal db id) as [[d [e|]]|e]; cbn;
    intros accepted; try (exfalso; apply accepted; exact I).
  repeat apply conj; try reflexivity.
  - apply Subseq_filter.
  - intros g. rewrite filter_In, negb_true_iff, String.eqb_neq. reflexivity.
  - apply filter_unique_id.
Qed.

(** Deleting the first transaction of the example render, whose identifiers
    are distinct. *)
Lemma deleteTransaction_removes_witness :
  let db := ExampleRemote.accepting [] [] "t3" Example.now in
  ~ failed (Remote.delete_transaction db "t1")
  /\ State.transactions (Run.next (deleteTransaction db "t1") Example.render)
     = [Example.salary]
  /\ S (List.length
          (State.transactions (Run.next (deleteTransaction db "t1") Example.render)))
     = 2%nat.
Proof.
  intros db.
  assert (accepted : ~ failed (Remote.delete_transaction db "t1")) by (intros F; exact F).
  pose proof (deleteTransaction_removes db "t1" Example.render accepted)
    as [_ [_ [_ [_ H]]]].
  split; [exact accepted|]. split; [reflexivity|].
  apply H.
  - repeat constructor; cbn; intuition discriminate.
  - exists Example.coffee. split; [now left | reflexivity].
Defined.

(** Deleting the goal of the example render. *)
Lemma deleteGoal_removes_witness :
  let db := ExampleRemote.accepting [] [] "t3" Example.now in
  ~ failed (Remote.delete_goal db "g1")
  /\ State.goals (Run.next (deleteGoal db "g1") Example.render) = []
  /\ S (List.length (State.goals (Run.next (deleteGoal db "g1") Example.render)))
     = 1%nat.
Proof.
  intros db.
  assert (accepted : ~ failed (Remote.delete_goal db "g1")) by (intros F; exact F).
  pose proof (deleteGoal_removes db "g1" Example.render accepted)
    as [_ [_ [_ [_ H]]]].
  split; [exact accepted|]. split; [reflexivity|].
  apply H.
  - repeat constructor; cbn; intuition discriminate.
  - exists Example.bike. split; [now left | reflexivity].
Defined.

Section StoreCompose.

Context {host : Host}.

(** X6. Each handler writes only its own part of the state: putting back the
    list it manages (and, for the two forms, the two text fields it may
    empty) gives the render it started from.  In particular the balance is
    the same before and after [addGoal] and [deleteGoal], and the goals are
    the same before and after [addTransaction] and [deleteTransaction]. *)
Theorem handlers_write_their_own_part (db : Remote.t) (now id : string) (r : State.t) :
  State.setAmount (State.amount r)
    (State.setDescription (State.description r)
       (State.setTransactions (State.transactions r)
          (Run.next (addTransaction db now) r))) = r
  /\ State.setTransactions (State.transactions r)
       (Run.next (deleteTransaction db id) r) = r
  /\ State.setGoalTarget (State.goalTarget r)
       (State.setGoalName (State.goalName r)
          (State.setGoals (State.goals r) (Run.next (addGoal db) r))) = r
  /\ State.setGoals (State.goals r) (Run.next (deleteGoal db id) r) = r
  /\ balance (State.transactions (Run.next (addGoal db) r))
     = balance (State.transactions r)
  /\ balance (State.transactions (Run.next (deleteGoal db id) r))
     = balance (State.transactions r)
  /\ State.goals (Run.next (addTransaction db now) r) = State.goals r
  /\ State.goals (Run.next (deleteTransaction db id) r) = State.goals r.
Proof.
  assert (A : State.setAmount (State.amount r)
    (State.setDescription (State.description r)
       (State.setTransactions (State.transactions r)
          (Run.next (addTransaction db now) r))) = r).
  { run_handler. destruct (negb _ || negb _); [now destruct r|].
    destruct (Remote.insert_transaction db _) as [[[[d0 ds]|] [e|]]|e];
      now destruct r. }
  assert (B : State.setTransactions (State.transactions r)
       (Run.next (deleteTransaction db id) r) = r).
  { run_handler.
    destruct (Remote.delete_transaction db id) as [[d [e|]]|e]; now destruct r. }
  assert (C : State.setGoalTarget (State.goalTarget r)
       (State.setGoalName (State.goalName r)
          (State.setGoals (State.goals r) (Run.next (addGoal db) r))) = r).
  { run_handler. destruct (negb _ || negb _); [now destruct r|].
    destruct (Remote.insert_goal db _) as [[[[d0 ds]|] [e|]]|e];
      now destruct r. }
  assert (D : State.setGoals (State.goals r) (Run.next (deleteGoal db id) r) = r).
  { run_handler.
    destruct (Remote.delete_goal db id) as [[d [e|]]|e]; now destruct r. }
  repeat apply conj; try assumption.
  - apply (f_equal State.transactions) in C. cbn in C. now rewrite C.
  - apply (f_equal State.transactions) in D. cbn in D. now rewrite D.
  - apply (f_equal State.goals) in A. exact A.
  - apply (f_equal State.goals) in B. exact B.
Qed.

(** X7. Storing a transaction and then deleting the created row gives back the
    list of the render, when the store gave the row an identifier that no
    listed transaction carries. *)
Theorem add_then_delete_transaction (db1 db2 : Remote.t) (now : string)
    (r : State.t) (row : Transaction.t)
    (described : State.description r <> ""%string)
    (priced : State.amount r <> ""%string)
    (stored : created (Remote.insert_transaction db1 (newTransaction now r)) row)
    (fresh : forall t, In t (State.transactions r) ->
                       Transaction.id t <> Transaction.id row)
    (deleted : ~ failed (Remote.delete_transaction db2 (Transaction.id row))) :
  let s1 := Run.next (addTransaction db1 now) r in
  let s2 := Run.next (deleteTransaction db2 (Transaction.id row)) s1 in
  State.transactions s1 = row :: State.transactions r
  /\ State.transactions s2 = State.transactions r
  /\ State.goals s2 = State.goals r.
Proof.
  cbv zeta.
  assert (E1 : State.transactions (Run.next (addTransaction db1 now) r)
               = row :: State.transactions r).
  { revert stored. run_handler.
    destruct (State.description r); [contradiction|].
    destruct (State.amount r); [contradiction|]. cbn.
    destruct (Remote.insert_transaction db1 _) as [[[[d0 ds]|] [e|]]|e]; cbn;
      try contradiction. now intros ->. }
  split; [exact E1|].
  destruct (deleteTransaction_removes db2 (Transaction.id row)
              (Run.next (addTransaction db1 now) r) deleted) as [_ [_ [G _]]].
  split.
  - revert deleted. unfold Run.next at 1. unfold deleteTransaction.
    unfold Run.try_catch, Run.bind, Run.await, Run.set, Run.throw, JS.await.
    destruct (Remote.delete_transaction db2 _) as [[d [e|]]|e]; cbn;
      intros deleted; try (exfalso; apply deleted; exact I).
    rewrite E1. cbn [filter]. rewrite String.eqb_refl. cbn [negb].
    apply (filter_id_absent _ _ fresh).
  - rewrite G.
    now destruct (handlers_write_their_own_part db1 now now r) as [_ [_ [_ [_ [_ [_ [H _]]]]]]].
Qed.

(** X8. Storing a goal appends the created row, and deleting that row then
    gives back the goals of the render, when the store gave the row an
    identifier that no listed goal carries. *)
Theorem add_then_delete_goal (db1 db2 : Remote.t) (r : State.t) (row : SavingGoal.t)
    (named : State.goalName r <> ""%string)
    (targeted : State.goalTarget r <> ""%string)
    (stored : created (Remote.insert_goal db1 (newGoal r)) row)
    (fresh : forall g, In g (State.goals r) -> SavingGoal.id g <> SavingGoal.id row)
    (deleted : ~ failed (Remote.delete_goal db2 (SavingGoal.id row))) :
  let s1 := Run.next (addGoal db1) r in
  let s2 := Run.next (deleteGoal db2 (SavingGoal.id row)) s1 in
  State.goals s1 = State.goals r ++ [row]
  /\ State.goals s2 = State.goals r
  /\ State.transactions s2 = State.transactions r.
Proof.
  cbv zeta.
  pose proof (addGoal_created db1 r row named targeted stored) as E1.
  split; [exact E1|].
  destruct (deleteGoal_removes db2 (SavingGoal.id row)
              (Run.next (addGoal db1) r) deleted) as [_ [_ [G _]]].
  split.
  - revert deleted. unfold Run.next at 1. unfold deleteGoal.
    unfold Run.try_catch, Run.bind, Run.await, Run.set, Run.throw, JS.await.
    destruct (Remote.delete_goal db2 _) as [[d [e|]]|e]; cbn;
      intros deleted; try (exfalso; apply deleted; exact I).
    rewrite E1, filter_app. cbn [filter]. rewrite String.eqb_refl. cbn [negb].
    rewrite app_nil_r. apply filter_all. intros g Hg.
    apply negb_true_iff, String.eqb_neq. now apply fresh.
  - rewrite G.
    destruct (handlers_write_their_own_part db1 "" "" r) as [_ [_ [C _]]].
    apply (f_equal State.transactions) in C. exact C.
Qed.

End StoreCompose.

(** A transaction and a goal, stored and deleted again on the example
    render. *)
Lemma add_then_delete_transaction_witness :
  let h := ExampleHost.host in
  let db := ExampleRemote.accepting [] [] "n1" Example.now in
  let s1 := Run.next (addTransaction db Example.now) Example.render in
  let s2 := Run.next (deleteTransaction db "n1") s1 in
  List.length (State.transactions s1) = 3%nat
  /\ State.transactions s2 = [Example.coffee; Example.salary].
Proof.
  intros h db s1 s2.
  pose (row := Transaction.mk "n1" "Tea" 20 "Food" Example.now expense (Some Example.now)).
  assert (fresh : forall t, In t (State.transactions Example.render) ->
                            Transaction.id t <> Transaction.id row).
  { intros t [<- | [<- | []]]; discriminate. }
  assert (deleted : ~ failed (Remote.delete_transaction db (Transaction.id row)))
    by (intros F; exact F).
  destruct (@add_then_delete_transaction h db db Example.now Example.render row
              ltac:(discriminate) ltac:(discriminate) eq_refl fresh deleted)
    as [A [B _]].
  split; [unfold s1; now rewrite A | exact B].
Defined.

Lemma add_then_delete_goal_witness :
  let h := ExampleHost.host in
  let db := ExampleRemote.accepting [] [] "n1" Example.now in
  let s1 := Run.next (addGoal db) Example.render in
  let s2 := Run.next (deleteGoal db "n1") s1 in
  List.length (State.goals s1) = 2%nat /\ State.goals s2 = [Example.bike].
Proof.
  intros h db s1 s2.
  pose (row := SavingGoal.mk "n1" "Trip" 300 (Some Example.now)).
  assert (fresh : forall g, In g (State.goals Example.render) ->
                            SavingGoal.id g <> SavingGoal.id row).
  { intros g [<- | []]; discriminate. }
  assert (deleted : ~ failed (Remote.delete_goal db (SavingGoal.id row)))
    by (intros F; exact F).
  destruct (@add_then_delete_goal h db db Example.render row
              ltac:(discriminate) ltac:(discriminate) eq_refl fresh deleted)
    as [A [B _]].
  split; [unfold s1; now rewrite A | exact B].
Defined.

(** * Further properties of the derived values *)

Lemma filter_filter_comm {A : Type} (f g : A -> bool) (l : list A) :
  filter f (filter g l) = filter g (filter f l).
Proof.
  induction l as [|x l IH]; [reflexivity|]. cbn [filter].
  destruct (f x) eqn:Ef, (g x) eqn:Eg; cbn [filter]; rewrite ?Ef, ?Eg, IH; reflexivity.
Qed.

Lemma filter_length_le {A : Type} (f : A -> bool) (l : list A) :
  (List.length (filter f l) <= List.length l)%nat.
Proof.
  induction l as [|x l IH]; cbn; [lia|]. destruct (f x); cbn; lia.
Qed.

(** X9. The filtered view keeps the order of the list: transactions in
    descending order of date are displayed in descending order of date,
    whatever the query.  The view never has more rows than the list, and
    filtering the list left by a deletion is deleting from the filtered
    view. *)
Theorem filteredTransactions_keeps_order {host : Host}
    (transactions : list Transaction.t) (q id : string)
    (sorted : dateDescending transactions) :
  dateDescending (filteredTransactions transactions q)
  /\ (List.length (filteredTransactions transactions q)
      <= List.length transactions)%nat
  /\ filteredTransactions
       (filter (fun t => negb (String.eqb (Transaction.id t) id)) transactions) q
     = filter (fun t => negb (String.eqb (Transaction.id t) id))
              (filteredTransactions transactions q).
Proof.
  unfold filteredTransactions. repeat apply conj.
  - apply chain_filter; [|exact sorted]. intros x y z. apply date_ge_trans.
  - apply filter_length_le.
  - apply filter_filter_comm.
Qed.

Lemma filteredTransactions_keeps_order_witness :
  let h := ExampleHost.host in
  dateDescending [Example.coffee; Example.salary]
  /\ dateDescending (filteredTransactions [Example.coffee; Example.salary] "a")
  /\ filteredTransactions [Example.coffee; Example.salary] "a" = [Example.salary].
Proof.
  intros h.
  assert (S : dateDescending [Example.coffee; Example.salary]).
  { split; [vm_compute; discriminate | exact I]. }
  destruct (@filteredTransactions_keeps_order h _ "a" "" S) as [A _].
  split; [exact S|]. split; [exact A | reflexivity].
Defined.

Lemma count_char_app (c : ascii) (a b : string) :
  count_char c (a ++ b) = (count_char c a + count_char c b)%nat.
Proof. induction a as [|d a IH]; cbn; [reflexivity | rewrite IH; lia]. Qed.

Lemma before_first (c : ascii) (a b : string) :
  count_char c a = O -> JS.before c (a ++ String c b) = a.
Proof.
  induction a as [|d a IH]; cbn [append JS.before count_char]; intros H.
  - now rewrite Ascii.eqb_refl.
  - destruct (Ascii.eqb c d); [discriminate|]. f_equal. now apply IH.
Qed.

Section CsvMore.

Context {host : Host}.

Lemma csv_line_count (c : ascii) (t : Transaction.t) :
  count_char c (csv_line t)
  = (4 * count_char c "," + list_sum (map (count_char c) (csv_fields t)))%nat.
Proof.
  unfold csv_line, csv_fields. rewrite !count_char_app.
  unfold list_sum. cbn [map fold_right]. lia.
Qed.

Lemma csv_lines_count (ts : list Transaction.t) :
  (forall t f, In t ts -> In f (csv_fields t) -> count_char (ascii_of_nat 10) f = O) ->
  count_char (ascii_of_nat 10) (csv_lines ts) = List.length ts.
Proof.
  induction ts as [|t ts IH]; intros H; [reflexivity|].
  cbn [csv_lines List.length]. rewrite !count_char_app, csv_line_count, IH.
  - assert (Z : list_sum (map (count_char (ascii_of_nat 10)) (csv_fields t)) = O).
    { assert (F : forall f, In f (csv_fields t) -> count_char (ascii_of_nat 10) f = O)
        by (intros f Hf; apply (H t f); [now left | exact Hf]).
      revert F. generalize (csv_fields t). intros l.
      induction l as [|f l IHl]; intros F; [reflexivity|].
      unfold list_sum in *. cbn [map fold_right].
      rewrite (F f (or_introl eq_refl)), IHl; [reflexivity|].
      intros g Hg. apply F. now right. }
    rewrite Z. reflexivity.
  - intros t' f Ht' Hf. apply (H t' f); [now right | exact Hf].
Qed.

(** X10. The exported text has one line per transaction after the header: when
    no field text holds a line feed, there are as many line feeds as
    transactions.  Fields are written as they are: a line has four commas
    more than its five field texts hold, so a comma in a description gives
    the line a sixth column. *)
Theorem csvContent_lines_and_commas (ts : list Transaction.t)
    (one_line_fields :
       forall t f, In t ts -> In f (csv_fields t) ->
                   count_char (ascii_of_nat 10) f = O) :
  count_char (ascii_of_nat 10) (csvContent ts) = List.length ts
  /\ (forall t, count_char "," (csv_line t)
                = (4 + list_sum (map (count_char ",") (csv_fields t)))%nat)
  /\ (forall t, (0 < count_char "," (Transaction.description t))%nat ->
                (5 <= count_char "," (csv_line t))%nat).
Proof.
  repeat apply conj.
  - rewrite csvContent_text. unfold csv_text.
    rewrite count_char_app, (csv_lines_count ts one_line_fields). reflexivity.
  - intros t. rewrite csv_line_count. change (count_char "," ",") with 1%nat. lia.
  - intros t Hd. rewrite csv_line_count. unfold csv_fields, list_sum.
    cbn [map fold_right]. change (count_char "," ",") with 1%nat. lia.
Qed.

(** X11. The name of the exported file holds the part of the current timestamp
    that comes before its first [T]: the calendar date of [toISOString]. *)
Theorem exportToCSV_filename (date rest : string) (r : State.t)
    (t : Transaction.t) (ts : list Transaction.t)
    (no_T : count_char "T" date = O) :
  Run.effects (exportToCSV (date ++ "T" ++ rest)) (State.setTransactions (t :: ts) r)
  = [download (csvContent (t :: ts)) "text/csv;charset=utf-8;"
              ("ledger-lite-export-" ++ date ++ ".csv")].
Proof.
  unfold Run.effects, exportToCSV. cbn [State.transactions State.setTransactions].
  cbn [Run.emit snd].
  change ("T" ++ rest)%string with (String "T" rest).
  now rewrite (before_first "T" date rest no_T).
Qed.

End CsvMore.

Lemma csvContent_lines_and_commas_witness :
  let h := ExampleHost.host in
  count_char (ascii_of_nat 10) (csvContent [Example.coffee; Example.salary]) = 2%nat
  /\ count_char "," (csv_line Example.coffee) = 4%nat.
Proof.
  intros h.
  assert (F : forall t f, In t [Example.coffee; Example.salary] ->
                          In f (csv_fields t) -> count_char (ascii_of_nat 10) f = O).
  { intros t f [<- | [<- | []]] Hf; vm_compute in Hf;
      repeat (destruct Hf as [<- | Hf]; [reflexivity|]); contradiction. }
  destruct (@csvContent_lines_and_commas h _ F) as [A [B _]].
  split; [exact A|]. rewrite B. reflexivity.
Defined.

Lemma exportToCSV_filename_witness :
  let h := ExampleHost.host in
  count_char "T" "2026-11-02" = O
  /\ Run.effects (exportToCSV Example.now) Example.render
     = [download (csvContent [Example.coffee; Example.salary])
                 "text/csv;charset=utf-8;" "ledger-lite-export-2026-11-02.csv"].
Proof.
  intros h. split; [reflexivity|].
  exact (@exportToCSV_filename h "2026-11-02" "10:00:00.000Z" Example.render
           Example.coffee [Example.salary] eq_refl).
Defined.

(** * Further properties of the progress of a goal *)

Lemma float_0_not_100 : 0%float <> 100%float.
Proof. intros H. apply (f_equal Prim2SF) in H. vm_compute in H. discriminate. Qed.

Lemma SFcompare_100_eq (V : spec_float) :
  SFcompare C100 V = Some Eq -> V = C100.
Proof.
  unfold C100. destruct V as [s|s| |s m e]; cbn [SFcompare]; try discriminate.
  - destruct s; discriminate.
  - destruct s; [discriminate|].
    destruct (Z.compare_spec (-46) e) as [<-|H|H]; try discriminate.
    intros H. injection H as H.
    change (Pos.compare_cont Eq hundred_m m) with (Pos.compare hundred_m m) in H.
    apply Pos.compare_eq in H. now subst m.
Qed.

(** X12. The bar is full exactly for the goals marked achieved: for every balance
    and every goal, [isAchieved] holds if and only if the width is the
    number 100. *)
Theorem achieved_iff_full_bar (b : JS.number) (goal : SavingGoal.t) :
  isAchieved (progress b goal) = true <-> barWidth (progress b goal) = 100%float.
Proof.
  unfold progress.
  set (v := (b / SavingGoal.target_amount goal * 100)%float).
  rewrite Math_min_100. unfold isAchieved, barWidth, JS.ge, JS.lt.
  destruct (is_nan v) eqn:Nv.
  - split; [discriminate|]. intros H. apply (f_equal Prim2SF) in H.
    vm_compute in H. discriminate.
  - destruct (100 <? v)%float eqn:Hv.
    + split; reflexivity.
    + split.
      * intros H. rewrite leb_spec in H. rewrite ltb_spec in Hv.
        unfold SFleb in H. unfold SFltb in Hv.
        change (Prim2SF 100) with C100 in *.
        destruct (SFcompare C100 (Prim2SF v)) as [[| |]|] eqn:E; try discriminate.
        apply SFcompare_100_eq in E.
        assert (v = 100%float) as -> by (apply Prim2SF_inj; exact E).
        reflexivity.
      * destruct (v <? 0)%float.
        -- intros H. now destruct (float_0_not_100 H).
        -- intros ->. reflexivity.
Qed.

(** X13. With no transaction the balance is 0, and every goal with a positive
    target shows progress 0, an empty bar and no mark. *)
Theorem empty_ledger_progress (goal : SavingGoal.t)
    (positive_target : JS.lt 0 (SavingGoal.target_amount goal) = true) :
  balance [] = 0%float
  /\ progress (balance []) goal = 0%float
  /\ barWidth (progress (balance []) goal) = 0%float
  /\ isAchieved (progress (balance []) goal) = false.
Proof.
  assert (B : balance [] = 0%float) by reflexivity.
  rewrite B. unfold progress.
  set (t := SavingGoal.target_amount goal) in *.
  assert (Q : (0 / t)%float = 0%float).
  { apply Prim2SF_inj. rewrite div_spec.
    unfold JS.lt in positive_target. rewrite ltb_spec in positive_target.
    change (Prim2SF 0) with (S754_zero false) in *.
    destruct (Prim2SF t) as [s|s| |s m e]; cbn in positive_target;
      try discriminate; destruct s; try discriminate; reflexivity. }
  rewrite Q. repeat split.
Qed.

Lemma empty_ledger_progress_witness :
  JS.lt 0 (SavingGoal.target_amount Example.bike) = true
  /\ barWidth (progress (balance []) Example.bike) = 0%float.
Proof.
  split; [reflexivity|].
  now destruct (empty_ledger_progress Example.bike eq_refl) as [_ [_ [H _]]].
Defined.

(** X14. A negative balance (a debt, or minus infinity) gives every goal with a
    finite positive target an empty bar, the width being zero ([+0] or
    [-0]), and no mark. *)
Theorem negative_balance_progress (b : JS.number) (goal : SavingGoal.t)
    (finite_target : is_finite (SavingGoal.target_amount goal) = true)
    (positive_target : JS.lt 0 (SavingGoal.target_amount goal) = true)
    (negative_balance : JS.lt b 0 = true) :
  (barWidth (progress b goal) =? 0)%float = true
  /\ isAchieved (progress b goal) = false.
Proof.
  destruct (isAchieved_iff b goal finite_target positive_target) as [A _].
  set (t := SavingGoal.target_amount goal) in *.
  destruct (positive_finite t finite_target positive_target) as [mt [et Ht]].
  unfold JS.lt in negative_balance. rewrite ltb_spec in negative_balance.
  change (Prim2SF 0) with (S754_zero false) in negative_balance.
  split.
  - unfold progress. fold t.
    set (v := (b / t * 100)%float).
    assert (V : Prim2SF v = S754_zero true
                \/ Prim2SF v = S754_infinity true
                \/ exists m e, Prim2SF v = S754_finite true m e).
    { unfold v. rewrite mul_spec, div_spec, Ht. change (Prim2SF 100) with C100.
      unfold SF64mul, SF64div.
      destruct (Prim2SF b) as [s|s| |s mb eb]; cbn in negative_balance;
        try discriminate; destruct s; try discriminate.
      - right. now left.
      - destruct (SFdiv_finite_shape true mb mt eb et) as [H | [H | [m [e H]]]];
          rewrite H.
        + now left.
        + right. now left.
        + exact (SFmul_100_shape true m e). }
    rewrite Math_min_100. unfold barWidth, JS.lt.
    assert (Nv : is_nan v = false).
    { destruct (is_nan v) eqn:N; [|reflexivity]. apply is_nan_spec in N.
      destruct V as [V | [V | [m [e V]]]]; congruence. }
    rewrite Nv.
    assert (Hv : (100 <? v)%float = false).
    { rewrite ltb_spec. change (Prim2SF 100) with C100.
      destruct V as [V | [V | [m [e V]]]]; rewrite V; reflexivity. }
    rewrite Hv.
    destruct V as [V | [V | [m [e V]]]].
    + assert (L : (v <? 0)%float = false) by (rewrite ltb_spec, V; reflexivity).
      rewrite L, eqb_spec, V. reflexivity.
    + assert (L : (v <? 0)%float = true) by (rewrite ltb_spec, V; reflexivity).
      rewrite L. reflexivity.
    + assert (L : (v <? 0)%float = true) by (rewrite ltb_spec, V; reflexivity).
      rewrite L. reflexivity.
  - rewrite A. unfold JS.ge. rewrite leb_spec. fold t. rewrite Ht.
    destruct (Prim2SF b) as [s|s| |s mb eb]; cbn in negative_balance;
      try discriminate; destruct s; try discriminate; reflexivity.
Qed.

Lemma negative_balance_progress_witness :
  JS.lt (-50) 0 = true
  /\ (barWidth (progress (-50) Example.bike) =? 0)%float = true
  /\ isAchieved (progress (-50) Example.bike) = false.
Proof.
  split; [reflexivity|].
  exact (negative_balance_progress (-50) Example.bike eq_refl eq_refl eq_refl).
Defined.

(** * The theme *)

(** X15. After a toggle the theme is [light] or [dark], whatever was stored (the
    stored text is read without a check); toggling twice gives back a theme
    that is [light] or [dark], and only such a theme.  The stored item is
    read back at the next start: the theme written by the effect is the
    initial theme, unless it is empty; with no item, or an empty one, the
    initial theme is [dark]. *)
Theorem theme_toggle_and_persistence (prev theme : string) (env : Theme.Browser) :
  (Theme.toggleTheme prev = "light"%string \/ Theme.toggleTheme prev = "dark"%string)
  /\ (Theme.toggleTheme (Theme.toggleTheme prev) = prev
      <-> prev = "light"%string \/ prev = "dark"%string)
  /\ Theme.toggleTheme "light" = "dark"%string
  /\ Theme.toggleTheme "dark" = "light"%string
  /\ (theme <> ""%string -> Theme.initial (Theme.effect theme env) = theme)
  /\ Theme.initial (Theme.effect (Theme.toggleTheme prev) env) = Theme.toggleTheme prev
  /\ Theme.initial (Theme.mkBrowser None (Theme.data_theme env)) = "dark"%string
  /\ Theme.initial (Theme.mkBrowser (Some ""%string) (Theme.data_theme env))
     = "dark"%string.
Proof.
  assert (T : forall p, Theme.toggleTheme p = "light"%string
                        \/ Theme.toggleTheme p = "dark"%string).
  { intros p. unfold Theme.toggleTheme. destruct (String.eqb p "light"); auto. }
  split; [apply T|]. split.
  { split.
    - intros H. destruct (T (Theme.toggleTheme prev)) as [E|E];
        rewrite E in H; subst prev; auto.
    - intros [-> | ->]; reflexivity. }
  split; [reflexivity|]. split; [reflexivity|]. split.
  { intros Ht. unfold Theme.initial, Theme.effect. cbn [Theme.ledger_theme].
    destruct theme; [contradiction|reflexivity]. }
  split; [destruct (T prev) as [-> | ->]; reflexivity|].
  split; reflexivity.
Qed.

(** * Totals of non-negative amounts *)

Section AddNonneg.

Local Open Scope Z_scope.

Lemma digits2_pos_iter_xO (m d : positive) :
  Z.pos (digits2_pos (Pos.iter xO m d)) = Z.pos (digits2_pos m) + Z.pos d.
Proof.
  induction d as [|d IH] using Pos.peano_ind.
  - cbn [Pos.iter digits2_pos]. lia.
  - rewrite Pos.iter_succ. cbn [digits2_pos]. lia.
Qed.

(** [binary_round] of a positive mantissa has the sign it is given and is
    never NaN. *)
Lemma binary_round_shape (s : bool) (m : positive) (e : Z) :
  let R := binary_round prec emax s m e in
  R = S754_zero s \/ R = S754_infinity s \/ exists m' e', R = S754_finite s m' e'.
Proof.
  cbv zeta. unfold binary_round, shl_align. rewrite fexp_64.
  set (E := Z.max (Z.pos (digits2_pos m) + e - 53) (-1074)).
  destruct (E - e) as [|p|p] eqn:D.
  - destruct (binary_round_aux_value s (Z.pos m) e loc_Exact) as [m2 [_ [_ [_ H]]]];
      [lia | cbn [Zdigits2]; fold E; lia |].
    exact (rounded_shape _ _ _ _ H).
  - destruct (binary_round_aux_value s (Z.pos m) e loc_Exact) as [m2 [_ [_ [_ H]]]];
      [lia | cbn [Zdigits2]; fold E; lia |].
    exact (rounded_shape _ _ _ _ H).
  - destruct (binary_round_aux_value s (Z.pos (Pos.iter xO m p)) E loc_Exact)
      as [m2 [_ [_ [_ H]]]]; [lia | |].
    + cbn [Zdigits2]. rewrite digits2_pos_iter_xO. unfold E in *. lia.
    + exact (rounded_shape _ _ _ _ H).
Qed.

End AddNonneg.

(** A number is not below zero exactly when its sign bit is off, or it is a
    zero. *)
Lemma nonneg_spec (x : JS.number) :
  nonneg x = true
  <-> (exists s, Prim2SF x = S754_zero s)
      \/ Prim2SF x = S754_infinity false
      \/ exists m e, Prim2SF x = S754_finite false m e.
Proof.
  unfold nonneg. rewrite leb_spec. change (Prim2SF 0) with (S754_zero false).
  destruct (Prim2SF x) as [s|s| |s m e]; cbn.
  - split; [intros _; left; now exists s | reflexivity].
  - destruct s; split; try discriminate; try reflexivity.
    + intros [[s H] | [H | [m [e H]]]]; discriminate.
    + intros _. right. now left.
  - split; [discriminate|]. intros [[s H] | [H | [m [e H]]]]; discriminate.
  - destruct s; split; try discriminate; try reflexivity.
    + intros [[s H] | [H | [m' [e' H]]]]; discriminate.
    + intros _. right. right. now exists m, e.
Qed.

(** The sum of two numbers that are not below zero is not below zero (and
    so is not NaN); it may be [+Infinity]. *)
Lemma nonneg_add (x y : JS.number) :
  nonneg x = true -> nonneg y = true -> nonneg (x + y) = true.
Proof.
  intros Hx Hy. apply nonneg_spec in Hx, Hy. apply nonneg_spec.
  rewrite add_spec. unfold SF64add.
  destruct Hx as [[sx ->] | [-> | [mx [ex ->]]]];
    destruct Hy as [[sy ->] | [-> | [my [ey ->]]]]; cbn [SFadd].
  - left. destruct sx, sy; eauto.
  - right. now left.
  - right. right. eauto.
  - right. now left.
  - right. now left.
  - right. now left.
  - right. right. eauto.
  - right. now left.
  - unfold binary_normalize, cond_Zopp. cbn [Z.add].
    destruct (binary_round_shape false
                (fst (shl_align mx ex (Z.min ex ey)) + fst (shl_align my ey (Z.min ex ey)))
                (Z.min ex ey)) as [H | [H | [m' [e' H]]]]; rewrite H; eauto 6.
Qed.

(** X16. When every amount is a number that is not below zero, so are the two
    totals: neither is NaN or negative, however many transactions there are
    (a total may overflow to [+Infinity]).  The balance is then NaN only when
    both totals are infinite. *)
Theorem totals_nonneg (transactions : list Transaction.t)
    (amounts_nonneg :
       forall t, In t transactions -> nonneg (Transaction.amount t) = true) :
  nonneg (Totals.income (totals transactions)) = true
  /\ nonneg (Totals.expense (totals transactions)) = true
  /\ is_nan (Totals.income (totals transactions)) = false
  /\ is_nan (Totals.expense (totals transactions)) = false
  /\ (is_nan (balance transactions) = true ->
      Totals.income (totals transactions) = infinity
      /\ Totals.expense (totals transactions) = infinity).
Proof.
  assert (G : forall ts acc,
             (forall t, In t ts -> nonneg (Transaction.amount t) = true) ->
             nonneg (Totals.income acc) = true ->
             nonneg (Totals.expense acc) = true ->
             nonneg (Totals.income (fold_left totals_step ts acc)) = true
             /\ nonneg (Totals.expense (fold_left totals_step ts acc)) = true).
  { induction ts as [|t ts IH]; intros acc H Hi He; [now split|].
    cbn [fold_left]. apply IH.
    - intros t' Ht'. apply H. now right.
    - unfold totals_step. destruct (Transaction.type t); cbn; [|assumption].
      apply nonneg_add; [assumption | apply H; now left].
    - unfold totals_step. destruct (Transaction.type t); cbn; [assumption|].
      apply nonneg_add; [assumption | apply H; now left]. }
  destruct (G transactions (Totals.mk 0 0) amounts_nonneg eq_refl eq_refl) as [Hi He].
  fold (totals transactions) in Hi, He.
  assert (N : forall x, nonneg x = true -> is_nan x = false).
  { intros x Hx. destruct (is_nan x) eqn:E; [|reflexivity].
    apply is_nan_spec in E. apply nonneg_spec in Hx.
    destruct Hx as [[s H] | [H | [m [e H]]]]; congruence. }
  split; [exact Hi|]. split; [exact He|].
  split; [now apply N|]. split; [now apply N|].
  unfold balance. intros B. apply is_nan_spec in B. rewrite sub_spec in B.
  unfold SF64sub in B.
  apply nonneg_spec in Hi. apply nonneg_spec in He.
  assert (I : Prim2SF infinity = S754_infinity false) by reflexivity.
  destruct Hi as [[si Hi] | [Hi | [mi [ei Hi]]]];
    destruct He as [[se He] | [He | [me [ee He]]]];
    rewrite Hi, He in B; cbn [SFsub] in B; try discriminate.
  - destruct si, se; discriminate.
  - split; apply Prim2SF_inj; congruence.
  - exfalso. unfold binary_normalize in B.
    destruct (cond_Zopp false (Z.pos (fst (shl_align mi ei (Z.min ei ee))))
              - cond_Zopp false (Z.pos (fst (shl_align me ee (Z.min ei ee)))))%Z
      as [|p|p]; try discriminate.
    + destruct (binary_round_shape false p (Z.min ei ee)) as [H | [H | [m' [e' H]]]];
        rewrite H in B; discriminate.
    + destruct (binary_round_shape true p (Z.min ei ee)) as [H | [H | [m' [e' H]]]];
        rewrite H in B; discriminate.
Qed.

Lemma totals_nonneg_witness :
  nonneg (Transaction.amount Example.coffee) = true
  /\ nonneg (Transaction.amount Example.salary) = true
  /\ nonneg (Totals.income (totals [Example.coffee; Example.salary])) = true
  /\ is_nan (Totals.expense (totals [Example.coffee; Example.salary])) = false.
Proof.
  assert (H : forall t, In t [Example.coffee; Example.salary] ->
                        nonneg (Transaction.amount t) = true).
  { intros t [<- | [<- | []]]; reflexivity. }
  destruct (totals_nonneg _ H) as [A [_ [_ [B _]]]].
  split; [reflexivity|]. split; [reflexivity|]. split; [exact A | exact B].
Defined.

(** * Two handlers of the same render *)

(** X17. Two handlers created by the same render both read the lists of that
    render, so the second to complete overwrites what the first wrote.  Two
    accepted submissions of the transaction form leave only the second
    created row in front of the list of the render; two accepted deletions
    leave the list of the render without the second identifier only, the
    row deleted first being listed again. *)
Theorem same_render_last_write_wins {host : Host} (db1 db2 : Remote.t)
    (now1 now2 id1 id2 : string) (r : State.t) (row1 row2 : Transaction.t)
    (described : State.description r <> ""%string)
    (priced : State.amount r <> ""%string)
    (stored1 : created (Remote.insert_transaction db1 (newTransaction now1 r)) row1)
    (stored2 : created (Remote.insert_transaction db2 (newTransaction now2 r)) row2)
    (deleted1 : ~ failed (Remote.delete_transaction db1 id1))
    (deleted2 : ~ failed (Remote.delete_transaction db2 id2)) :
  State.transactions
    (run_on (addTransaction db2 now2) r (run_on (addTransaction db1 now1) r r))
  = row2 :: State.transactions r
  /\ State.transactions
       (run_on (deleteTransaction db2 id2) r (run_on (deleteTransaction db1 id1) r r))
     = filter (fun t => negb (String.eqb (Transaction.id t) id2)) (State.transactions r).
Proof.
  split.
  - revert stored1 stored2. unfold run_on. run_handler.
    destruct (State.description r); [contradiction|].
    destruct (State.amount r); [contradiction|]. cbn.
    destruct (Remote.insert_transaction db1 _) as [[[[d1 ds1]|] [e1|]]|e1]; cbn;
      try contradiction.
    destruct (Remote.insert_transaction db2 _) as [[[[d2 ds2]|] [e2|]]|e2]; cbn;
      try contradiction.
    now intros _ ->.
  - revert deleted1 deleted2. unfold run_on. run_handler.
    destruct (Remote.delete_transaction db1 id1) as [[d1 [e1|]]|e1]; cbn;
      intros deleted1; try (exfalso; apply deleted1; exact I).
    destruct (Remote.delete_transaction db2 id2) as [[d2 [e2|]]|e2]; cbn;
      intros deleted2; try (exfalso; apply deleted2; exact I).
    reflexivity.
Qed.

(** The form of the example render submitted twice, and its two rows deleted
    one after the other, all from the same render. *)
Lemma same_render_last_write_wins_witness :
  let h := ExampleHost.host in
  let db1 := ExampleRemote.accepting [] [] "n1" Example.now in
  let db2 := ExampleRemote.accepting [] [] "n2" Example.now in
  List.length
    (State.transactions
       (run_on (addTransaction db2 Example.now) Example.render
               (run_on (addTransaction db1 Example.now) Example.render Example.render)))
  = 3%nat
  /\ State.transactions
       (run_on (deleteTransaction db2 "t2") Example.render
               (run_on (deleteTransaction db1 "t1") Example.render Example.render))
     = [Example.coffee].
Proof.
  intros h db1 db2.
  pose (row1 := Transaction.mk "n1" "Tea" 20 "Food" Example.now expense (Some Example.now)).
  pose (row2 := Transaction.mk "n2" "Tea" 20 "Food" Example.now expense (Some Example.now)).
  destruct (@same_render_last_write_wins h db1 db2 Example.now Example.now "t1" "t2"
              Example.render row1 row2 ltac:(discriminate) ltac:(discriminate)
              eq_refl eq_refl (fun F => F) (fun F => F)) as [A B].
  split; [now rewrite A | exact B].
Defined.
